(** * Adding Digital I/O To Your Arduino: the three sketches, embedded

    - [OutputShiftRegister.ino]  (74HC595, serial-in parallel-out)
    - [InputShiftRegister.ino]   (74HC165, parallel-in serial-out)
    - [PortExpander.ino]         (MCP23017 I2C port expander, INTB interrupt)

    A sketch function becomes a program over the operations it performs on
    the world (line writes and reads, library calls, accesses to the global
    [switchDidChange]); a world interprets the operations.  Bytes are [Z]
    with the wrap-around of [uint8_t] written out. *)

From Stdlib Require Import String ZArith List Lia Bool.
From Equations Require Import Equations.
Import ListNotations.
Local Open Scope Z_scope.

(** ** Programs over a signature of operations *)

Module Prog.

(** A program either returns, or performs an operation [e : E X] and goes
    on with its answer. *)
Inductive prog (E : Type -> Type) (A : Type) : Type :=
| Ret (a : A)
| Vis {X : Type} (e : E X) (k : X -> prog E A).

Arguments Ret {E A} a.
Arguments Vis {E A X} e k.

Fixpoint bind {E A B} (m : prog E A) (f : A -> prog E B) : prog E B :=
  match m with
  | Ret a => f a
  | Vis e k => Vis e (fun x => bind (k x) f)
  end.

Definition trigger {E X} (e : E X) : prog E X := Vis e Ret.

(** An operation together with the answer it got. *)
Inductive event (E : Type -> Type) : Type :=
| Event {X : Type} (e : E X) (x : X).

Arguments Event {E X} e x.

(** A world answers every operation and moves to its next state. *)
Definition handler (E : Type -> Type) (W : Type) : Type :=
  forall X, E X -> W -> X * W.

(** Running a program to its end: result, final world, and the operations
    performed, oldest first. *)
Fixpoint run {E W A} (h : handler E W) (p : prog E A) (w : W)
  : A * W * list (event E) :=
  match p with
  | Ret a => (a, w, [])
  | Vis e k =>
      let '(x, w1) := h _ e w in
      let '(a, w2, t) := run h (k x) w1 in
      (a, w2, Event e x :: t)
  end.

Definition result {E W A} (h : handler E W) (p : prog E A) (w : W) : A :=
  fst (fst (run h p w)).
Definition final {E W A} (h : handler E W) (p : prog E A) (w : W) : W :=
  snd (fst (run h p w)).
Definition trace {E W A} (h : handler E W) (p : prog E A) (w : W)
  : list (event E) :=
  snd (run h p w).

(** Every run of the program performs exactly [n] operations. *)
Fixpoint opsLeft {E A} (p : prog E A) (n : nat) {struct p} : Prop :=
  match p, n with
  | Ret _, O => True
  | Vis _ k, S n' => forall x, opsLeft (k x) n'
  | _, _ => False
  end.

(** Every operation of the program, whatever the answers, satisfies [P]. *)
Inductive all_ops {E A} (P : forall X, E X -> Prop) : prog E A -> Prop :=
| all_Ret a : all_ops P (Ret a)
| all_Vis X (e : E X) k :
    P X e -> (forall x, all_ops P (k x)) -> all_ops P (Vis e k).

End Prog.

Import Prog.

Declare Scope prog_scope.
Delimit Scope prog_scope with prog.
Notation "x <- m ;; k" := (bind m (fun x => k))
  (at level 61, m at next level, right associativity) : prog_scope.
Notation "' pat <- m ;; k" := (bind m (fun x => let pat := x in k))
  (at level 61, pat pattern, m at next level, right associativity) : prog_scope.
Notation "m ;; k" := (bind m (fun _ => k))
  (at level 61, right associativity) : prog_scope.
Local Open Scope prog_scope.

(** ** The Arduino core the sketches are written against *)

Module Arduino.

Definition HIGH : Z := 1.
Definition LOW : Z := 0.
Definition LSBFIRST : Z := 0.
Definition MSBFIRST : Z := 1.

(** Storing into a [uint8_t], and the width of [unsigned long] ([1UL]). *)
Definition uint8 (z : Z) : Z := z mod 2 ^ 8.
Definition ulong (z : Z) : Z := z mod 2 ^ 32.

(** Modelled from the spec: the bit macros of [Arduino.h] are not in the
    repository ("pure bit-extraction / bit-mutation helpers");
    [#define bitRead(value, bit) (((value) >> (bit)) & 0x01)]. *)
Definition bitRead (value bit : Z) : Z := Z.land (Z.shiftr value bit) 1.

(** Modelled from the spec: [Arduino.h] is not in the repository;
    [#define bitSet(value, bit) ((value) |= (1UL << (bit)))], the result
    stored back into the [uint8_t] variable. *)
Definition bitSet (value bit : Z) : Z :=
  uint8 (Z.lor value (ulong (Z.shiftl 1 bit))).

(** Modelled from the spec: [Arduino.h] is not in the repository;
    [#define bitClear(value, bit) ((value) &= ~(1UL << (bit)))], the result
    stored back into the [uint8_t] variable. *)
Definition bitClear (value bit : Z) : Z :=
  uint8 (Z.land value (ulong (Z.lnot (ulong (Z.shiftl 1 bit))))).

(** C's [!!x]. *)
Definition truth (x : Z) : Z := if x =? 0 then 0 else 1.

(** Operations on the board's digital lines.  A line carries a level. *)
Inductive gpioE : Type -> Type :=
| DigitalWrite (pin : Z) (level : bool) : gpioE unit
| DigitalRead (pin : Z) : gpioE bool.

Definition gpio {X} (e : gpioE X) : prog gpioE X := trigger e.

(** [digitalWrite(pin, val)] drives the line low for [LOW] and high for
    anything else; [digitalRead(pin)] answers [HIGH] or [LOW]. *)
Definition digitalWrite (pin val : Z) : prog gpioE unit :=
  gpio (DigitalWrite pin (negb (val =? LOW))).

Definition digitalRead (pin : Z) : prog gpioE Z :=
  level <- gpio (DigitalRead pin) ;;
  Ret (if level then HIGH else LOW).

(** Modelled from the spec: [shiftOut] of the Arduino core is not in the
    repository ("shifts out 8 bits MSB-first on clock pulses"); for each of
    the 8 bits it sets the data line, then pulses the clock high and low.
    [n] counts the iterations left, [i] is the loop index. *)
Fixpoint shiftOut_loop (n : nat) (dataPin clockPin bitOrder val i : Z)
  : prog gpioE unit :=
  match n with
  | O => Ret tt
  | S n' =>
      (if bitOrder =? LSBFIRST
       then digitalWrite dataPin (truth (Z.land val (Z.shiftl 1 i)))
       else digitalWrite dataPin (truth (Z.land val (Z.shiftl 1 (7 - i))))) ;;
      digitalWrite clockPin HIGH ;;
      digitalWrite clockPin LOW ;;
      shiftOut_loop n' dataPin clockPin bitOrder val (i + 1)
  end.

Definition shiftOut (dataPin clockPin bitOrder val : Z) : prog gpioE unit :=
  shiftOut_loop 8 dataPin clockPin bitOrder val 0.

(** Modelled from the spec: [shiftIn] of the Arduino core is not in the
    repository ("shifts in 8 bits from a data line on explicit clock
    pulses"); for each of the 8 bits it raises the clock, samples the data
    line into [value] at the bit's place, and lowers the clock. *)
Fixpoint shiftIn_loop (n : nat) (dataPin clockPin bitOrder value i : Z)
  : prog gpioE Z :=
  match n with
  | O => Ret value
  | S n' =>
      digitalWrite clockPin HIGH ;;
      d <- digitalRead dataPin ;;
      let value :=
        if bitOrder =? LSBFIRST
        then uint8 (Z.lor value (Z.shiftl d i))
        else uint8 (Z.lor value (Z.shiftl d (7 - i))) in
      digitalWrite clockPin LOW ;;
      shiftIn_loop n' dataPin clockPin bitOrder value (i + 1)
  end.

Definition shiftIn (dataPin clockPin bitOrder : Z) : prog gpioE Z :=
  shiftIn_loop 8 dataPin clockPin bitOrder 0 0.

(** A line operation as it shows in a trace. *)
Definition drives (pin : Z) (level : bool) : event gpioE :=
  Event (DigitalWrite pin level) tt.
Definition samples (pin : Z) (level : bool) : event gpioE :=
  Event (DigitalRead pin) level.

End Arduino.

Import Arduino.

(** ** OutputShiftRegister.ino *)

Module OutputShiftRegister.

Definition OSRDataPin : Z := 2.
Definition OSRLatchPin : Z := 3.
Definition OSRClockPin : Z := 4.

Definition osrWriteRegister (outputs : Z) : prog gpioE unit :=
  (* Initiate latching process, next HIGH latches data *)
  digitalWrite OSRLatchPin LOW ;;
  (* Shift output data into the shift register, most significant bit first *)
  shiftOut OSRDataPin OSRClockPin MSBFIRST outputs ;;
  (* Latch outputs into the shift register *)
  digitalWrite OSRLatchPin HIGH.

(** [static uint8_t outputs] is passed in and handed back.  [pin] and
    [value] are [uint8_t] in the source: the function is applied to bytes,
    and the theorems say so where the value matters. *)
Definition osrDigitalWrite (pin value : Z) (outputs : Z) : prog gpioE Z :=
  let outputs :=
    if value =? HIGH then bitSet outputs pin
    else if value =? LOW then bitClear outputs pin
    else outputs in
  osrWriteRegister outputs ;;
  Ret outputs.

End OutputShiftRegister.

(** ** InputShiftRegister.ino *)

Module InputShiftRegister.

Definition ISRDataPin : Z := 2.
Definition ISRLatchPin : Z := 3.
Definition ISRClockPin : Z := 4.

Definition isrReadRegister : prog gpioE Z :=
  (* preset clock to retrieve first bit *)
  digitalWrite ISRClockPin HIGH ;;
  (* disable input latching and enable shifting *)
  digitalWrite ISRLatchPin HIGH ;;
  (* capture input values *)
  inputs <- shiftIn ISRDataPin ISRClockPin MSBFIRST ;;
  (* disable shifting and enable input latching *)
  digitalWrite ISRLatchPin LOW ;;
  Ret inputs.

(** [pin] is a [uint8_t] and [bitRead] shifts the byte as an [int]: the
    function is applied to pins below the width of [int], 16 on the AVR
    boards. *)
Definition isrDigitalRead (pin : Z) : prog gpioE Z :=
  inputs <- isrReadRegister ;;
  Ret (bitRead inputs pin).

End InputShiftRegister.

(** ** The two shift-register ICs

    Modelled from the spec: the peripherals of the "simulated shift path" are
    hardware, not code of the repository; they follow the spec's words (a
    latch line commits the outputs atomically; a latch-enable line switches
    between continuous input latching and shifting) and the sketches' own
    comments.  Both are driven through the three lines their sketch names.
    A register is a byte, bit [i] being stage [i] (QA/A is bit 0, QH/H is
    bit 7).  Between transactions the clock of the '595 and the latch of the
    '165 are low: [setup] leaves them so, and so does every transaction. *)

Module HC595.
Import OutputShiftRegister.

Record hc595 : Type := {
  shiftReg : Z;   (* the eight shift stages *)
  outputs : Z;    (* the storage register driving QA..QH *)
  ser : bool;     (* level on SER *)
  srclk : bool;   (* level on SRCLK *)
  rclk : bool     (* level on RCLK *)
}.

(** A rising edge on SRCLK shifts SER in at stage 0; a rising edge on RCLK
    ("next HIGH latches data") copies the shift stages to the outputs. *)
Definition drive (pin : Z) (level : bool) (c : hc595) : hc595 :=
  if pin =? OSRDataPin then
    {| shiftReg := shiftReg c; outputs := outputs c;
       ser := level; srclk := srclk c; rclk := rclk c |}
  else if pin =? OSRClockPin then
    {| shiftReg := if negb (srclk c) && level
                   then uint8 (Z.lor (Z.shiftl (shiftReg c) 1) (Z.b2z (ser c)))
                   else shiftReg c;
       outputs := outputs c;
       ser := ser c; srclk := level; rclk := rclk c |}
  else if pin =? OSRLatchPin then
    {| shiftReg := shiftReg c;
       outputs := if negb (rclk c) && level then shiftReg c else outputs c;
       ser := ser c; srclk := srclk c; rclk := level |}
  else c.

Definition board : handler gpioE hc595 := fun X e =>
  match e in gpioE X return hc595 -> X * hc595 with
  | DigitalWrite pin level => fun c => (tt, drive pin level c)
  | DigitalRead _ => fun c => (false, c)
  end.

(** Does this line operation raise the latch line? *)
Definition raisesLatch (ev : event gpioE) : bool :=
  match ev with
  | Event e _ =>
      match e with
      | DigitalWrite pin level => (pin =? OSRLatchPin) && level
      | DigitalRead _ => false
      end
  end.

(** The chip after a sequence of line operations. *)
Definition after (t : list (event gpioE)) (c : hc595) : hc595 :=
  fold_left (fun c ev => match ev with Event e _ => snd (board _ e c) end) t c.

End HC595.

Module HC165.
Import InputShiftRegister.

Record hc165 : Type := {
  inputs : Z;     (* levels on the parallel inputs A..H *)
  shiftReg : Z;   (* the eight shift stages *)
  shld : bool;    (* level on SH/LD: low latches the inputs, high shifts *)
  clk : bool      (* level on CLK *)
}.

(** "The shift register continuously latches inputs when not being read." *)
Definition contents (c : hc165) : Z :=
  if shld c then shiftReg c else inputs c.

(** Raising SH/LD keeps what was latched; a rising edge on CLK while SH/LD is
    high shifts towards H (the serial input is tied low); QH shows stage 7. *)
Definition drive (pin : Z) (level : bool) (c : hc165) : hc165 :=
  if pin =? ISRLatchPin then
    {| inputs := inputs c; shiftReg := contents c;
       shld := level; clk := clk c |}
  else if pin =? ISRClockPin then
    {| inputs := inputs c;
       shiftReg := if negb (clk c) && level && shld c
                   then uint8 (Z.shiftl (shiftReg c) 1)
                   else shiftReg c;
       shld := shld c; clk := level |}
  else c.

Definition sample (pin : Z) (c : hc165) : bool :=
  if pin =? ISRDataPin then Z.testbit (contents c) 7 else false.

Definition board : handler gpioE hc165 := fun X e =>
  match e in gpioE X return hc165 -> X * hc165 with
  | DigitalWrite pin level => fun c => (tt, drive pin level c)
  | DigitalRead pin => fun c => (sample pin c, c)
  end.

End HC165.

(** ** The simulated shift path: the '595 outputs wired to the '165 inputs *)

Module Loopback.
Import OutputShiftRegister InputShiftRegister.

Definition wire (tx : HC595.hc595) (rx : HC165.hc165) : HC165.hc165 :=
  {| HC165.inputs := HC595.outputs tx; HC165.shiftReg := HC165.shiftReg rx;
     HC165.shld := HC165.shld rx; HC165.clk := HC165.clk rx |}.

(** Write [b] with the output sketch, then run [reader] of the input
    sketch on the '165 that sees the '595 outputs. *)
Definition writeThenRead {A} (b : Z) (reader : prog gpioE A)
           (tx : HC595.hc595) (rx : HC165.hc165) : A :=
  let tx' := final HC595.board (osrWriteRegister b) tx in
  result HC165.board reader (wire tx' rx).

End Loopback.

(** ** PortExpander.ino *)

Module MCP23017Port.
Inductive t : Type := A | B.
End MCP23017Port.

Module PortExpander.

(** MCP23017 I/O pin definitions. *)
Definition LED0 : Z := 0.
Definition LED1 : Z := 1.
Definition LED2 : Z := 2.
Definition LED3 : Z := 3.
Definition LED4 : Z := 4.
Definition LED5 : Z := 5.
Definition LED6 : Z := 6.
Definition LED7 : Z := 7.
Definition Switch0 : Z := 8.
Definition Switch1 : Z := 9.
Definition Switch2 : Z := 10.
Definition Switch3 : Z := 11.
Definition Switch4 : Z := 12.
Definition Switch5 : Z := 13.
Definition Switch6 : Z := 14.
Definition Switch7 : Z := 15.

(** What the sketch does to its world: waiting, the global
    [volatile bool switchDidChange], and the calls on [mcp23017]. *)
Inductive op : Type -> Type :=
| Delay (ms : Z) : op unit
| LoadSwitchDidChange : op bool
| StoreSwitchDidChange (b : bool) : op unit
| InterruptedBy : op (Z * Z)             (* interruptedBy(flagA, flagB) *)
| ClearInterrupts : op unit              (* clearInterrupts() *)
| ClearInterruptsCapture : op (Z * Z)    (* clearInterrupts(capA, capB) *)
| McpDigitalRead (pin : Z) : op Z
| McpDigitalWrite (pin state : Z) : op unit
| ReadPort (port : MCP23017Port.t) : op Z
| WritePort (port : MCP23017Port.t) (value : Z) : op unit.

Definition call {X} (e : op X) : prog op X := trigger e.

(** Which operations read the flag, and which store [b] into it. *)
Definition loadsFlag {X} (e : op X) : bool :=
  match e with
  | LoadSwitchDidChange => true
  | _ => false
  end.

Definition storesFlag (b : bool) {X} (e : op X) : bool :=
  match e with
  | StoreSwitchDidChange b' => Bool.eqb b b'
  | _ => false
  end.

(** On every run, the program's last operation stores [b] into the flag. *)
Fixpoint endsStoring (b : bool) (p : prog op unit) : Prop :=
  match p with
  | Ret _ => False
  | Vis e k =>
      (storesFlag b e = true /\ forall x, k x = Ret tt) \/
      (forall x, endsStoring b (k x))
  end.

Definition readAndWriteWithDigitalReadAndDigitalWrite : prog op unit :=
  v <- call (McpDigitalRead Switch0) ;; call (McpDigitalWrite LED0 v) ;;
  v <- call (McpDigitalRead Switch1) ;; call (McpDigitalWrite LED1 v) ;;
  v <- call (McpDigitalRead Switch2) ;; call (McpDigitalWrite LED2 v) ;;
  v <- call (McpDigitalRead Switch3) ;; call (McpDigitalWrite LED3 v) ;;
  v <- call (McpDigitalRead Switch4) ;; call (McpDigitalWrite LED4 v) ;;
  v <- call (McpDigitalRead Switch5) ;; call (McpDigitalWrite LED5 v) ;;
  v <- call (McpDigitalRead Switch6) ;; call (McpDigitalWrite LED6 v) ;;
  v <- call (McpDigitalRead Switch7) ;; call (McpDigitalWrite LED7 v).

Definition portCopy : prog op unit :=
  v <- call (ReadPort MCP23017Port.B) ;;
  call (WritePort MCP23017Port.A v).

(** The interrupt service routine attached to INTB. *)
Definition mcp23017ChangeDetectedOnPortB : prog op unit :=
  call (StoreSwitchDidChange true).

Definition readAndWritePortOnInputChange : prog op unit :=
  changed <- call LoadSwitchDidChange ;;
  if changed : bool then
    call (Delay 100) ;;
    portCopy ;;
    call ClearInterrupts ;;
    call (StoreSwitchDidChange false)
  else Ret tt.

(** [for (pin = 0; pin < 8; pin++) { if (bitRead(flagB, pin)) break; }],
    entered with the current [pin]; the value of [pin] after the loop. *)
Definition pinsLeft (pin : Z) : nat := Z.to_nat (8 - pin).
#[local] Opaque pinsLeft.

Equations? findPin (flagB pin : Z) : Z by wf (pinsLeft pin) lt :=
  findPin flagB pin with Z_lt_dec pin 8 => {
    | left _ with bitRead flagB pin =? 0 => {
        | true := findPin flagB (pin + 1);
        | false := pin };
    | right _ := pin }.
Proof. with_strategy transparent [pinsLeft] (unfold pinsLeft). lia. Qed.

Definition readAndWritePinOnInputChange : prog op unit :=
  changed <- call LoadSwitchDidChange ;;
  if changed : bool then
    call (Delay 100) ;;
    '(flagA, flagB) <- call InterruptedBy ;;
    '(capA, capB) <- call ClearInterruptsCapture ;;
    let pin := findPin flagB 0 in
    let value := bitRead capB pin in
    call (McpDigitalWrite pin value) ;;
    call (StoreSwitchDidChange false)
  else Ret tt.

Definition loop : prog op unit := readAndWritePinOnInputChange.

(** The four approaches [loop] offers, one of them enabled at a time. *)
Inductive approach : Type :=
| DigitalReadAndDigitalWrite
| PortCopy
| PortOnInputChange
| PinOnInputChange.

Definition body (a : approach) : prog op unit :=
  match a with
  | DigitalReadAndDigitalWrite => readAndWriteWithDigitalReadAndDigitalWrite
  | PortCopy => portCopy
  | PortOnInputChange => readAndWritePortOnInputChange
  | PinOnInputChange => readAndWritePinOnInputChange
  end.

Definition handlesInterrupt (a : approach) : bool :=
  match a with
  | PortOnInputChange | PinOnInputChange => true
  | _ => false
  end.

(** Successive iterations of [loop]. *)
Fixpoint iterations (l : list approach) : prog op unit :=
  match l with
  | [] => Ret tt
  | a :: l' => body a ;; iterations l'
  end.

(** The MCP23017 library object, known by the calls the sketch makes on it.
    What comes back through a [uint8_t&] or as a [uint8_t] is a byte. *)
Class MCP23017 (D : Type) : Type := {
  mcp_interruptedBy : D -> Z * Z * D;
  mcp_clearInterrupts : D -> D;
  mcp_clearInterruptsCapture : D -> Z * Z * D;
  mcp_digitalRead : Z -> D -> Z * D;
  mcp_digitalWrite : Z -> Z -> D -> D;
  mcp_readPort : MCP23017Port.t -> D -> Z * D;
  mcp_writePort : MCP23017Port.t -> Z -> D -> D;
  mcp_interruptedBy_byte : forall d,
    0 <= fst (fst (mcp_interruptedBy d)) < 256 /\
    0 <= snd (fst (mcp_interruptedBy d)) < 256;
  mcp_clearInterruptsCapture_byte : forall d,
    0 <= fst (fst (mcp_clearInterruptsCapture d)) < 256 /\
    0 <= snd (fst (mcp_clearInterruptsCapture d)) < 256
}.

(** The sketch's world: its global and the library object. *)
Record mcu (D : Type) : Type := {
  switchDidChange : bool;
  mcp23017 : D
}.
Arguments switchDidChange {D} _.
Arguments mcp23017 {D} _.

Definition withChip {D} (w : mcu D) (d : D) : mcu D :=
  {| switchDidChange := switchDidChange w; mcp23017 := d |}.

Definition world {D} `{MCP23017 D} : handler op (mcu D) := fun X e =>
  match e in op X return mcu D -> X * mcu D with
  | Delay _ => fun w => (tt, w)
  | LoadSwitchDidChange => fun w => (switchDidChange w, w)
  | StoreSwitchDidChange b => fun w =>
      (tt, {| switchDidChange := b; mcp23017 := mcp23017 w |})
  | InterruptedBy => fun w =>
      let '(flags, d) := mcp_interruptedBy (mcp23017 w) in (flags, withChip w d)
  | ClearInterrupts => fun w =>
      (tt, withChip w (mcp_clearInterrupts (mcp23017 w)))
  | ClearInterruptsCapture => fun w =>
      let '(caps, d) := mcp_clearInterruptsCapture (mcp23017 w) in
      (caps, withChip w d)
  | McpDigitalRead pin => fun w =>
      let '(v, d) := mcp_digitalRead pin (mcp23017 w) in (v, withChip w d)
  | McpDigitalWrite pin state => fun w =>
      (tt, withChip w (mcp_digitalWrite pin state (mcp23017 w)))
  | ReadPort port => fun w =>
      let '(v, d) := mcp_readPort port (mcp23017 w) in (v, withChip w d)
  | WritePort port value => fun w =>
      (tt, withChip w (mcp_writePort port value (mcp23017 w)))
  end.

(** What the chip answers when the handler asks for the flag and capture
    registers, and the chip after that. *)
Definition flagsOf {D} `{MCP23017 D} (w : mcu D) : Z * Z :=
  fst (mcp_interruptedBy (mcp23017 w)).
Definition capturesOf {D} `{MCP23017 D} (w : mcu D) : Z * Z :=
  fst (mcp_clearInterruptsCapture (snd (mcp_interruptedBy (mcp23017 w)))).
Definition chipAfterCapture {D} `{MCP23017 D} (w : mcu D) : D :=
  snd (mcp_clearInterruptsCapture (snd (mcp_interruptedBy (mcp23017 w)))).

End PortExpander.

(** ** Interrupts arriving while the main loop runs

    The attached routine runs to its end between two operations of the main
    program.  A schedule gives, for each operation of the main program in
    turn, how many times the interrupt fires just before it. *)

Module Interrupts.

Inductive context : Type := InLoop | InISR.

Section Exec.
Context {E : Type -> Type} {W : Type}.
Variable h : handler E W.
Variable isr : prog E unit.

(** A world and what happened in it so far, oldest first. *)
Definition config : Type := W * list (context * event E).

Definition interrupt (c : config) : config :=
  (final h isr (fst c), snd c ++ map (pair InISR) (trace h isr (fst c))).

Fixpoint interrupts (n : nat) (c : config) : config :=
  match n with
  | O => c
  | S n' => interrupts n' (interrupt c)
  end.

(** One operation of the main program. *)
Definition step {A} (p : prog E A) (c : config) : prog E A * config :=
  match p with
  | Ret _ => (p, c)
  | Vis e k =>
      let '(x, w) := h _ e (fst c) in
      (k x, (w, snd c ++ [(InLoop, Event e x)]))
  end.

Fixpoint exec {A} (sched : list nat) (p : prog E A) (c : config)
  : prog E A * config :=
  match sched with
  | [] => (p, c)
  | n :: sched' =>
      let '(p', c') := step p (interrupts n c) in
      exec sched' p' c'
  end.

(** What the main program did, interrupts left out. *)
Definition inLoop (t : list (context * event E)) : list (event E) :=
  flat_map (fun ce => match fst ce with InLoop => [snd ce] | InISR => [] end) t.

End Exec.

End Interrupts.

(** ** A bench double of the MCP23017 object

    It answers from fixed register contents and records what is written. *)

Module Bench.
Import PortExpander.

Record chip : Type := {
  INTFA : Z; INTFB : Z;
  INTCAPA : Z; INTCAPB : Z;
  GPIOB : Z;
  written : list (Z * Z)
}.

Definition record (pin state : Z) (c : chip) : chip :=
  {| INTFA := INTFA c; INTFB := INTFB c;
     INTCAPA := INTCAPA c; INTCAPB := INTCAPB c;
     GPIOB := GPIOB c; written := written c ++ [(pin, state)] |}.

#[global] Instance double : MCP23017 chip.
Proof.
  refine {|
    mcp_interruptedBy c := (uint8 (INTFA c), uint8 (INTFB c), c);
    mcp_clearInterrupts c := c;
    mcp_clearInterruptsCapture c := (uint8 (INTCAPA c), uint8 (INTCAPB c), c);
    mcp_digitalRead pin c := (bitRead (GPIOB c) (pin - 8), c);
    mcp_digitalWrite pin state c := record pin state c;
    mcp_readPort _ c := (uint8 (GPIOB c), c);
    mcp_writePort _ _ c := c
  |}; intros; unfold uint8; cbn [fst snd];
    split; apply Z.mod_pos_bound; reflexivity.
Defined.

Definition idle (flagB capB : Z) : chip :=
  {| INTFA := 0; INTFB := flagB; INTCAPA := 0; INTCAPB := capB;
     GPIOB := capB; written := [] |}.

End Bench.

Import OutputShiftRegister InputShiftRegister PortExpander Interrupts.

(** ** The rest of the sketches: pauses, pin modes and the serial monitor

    The functions below also wait, set pin modes and print.  Printing is a
    call on the serial monitor, which receives a text or a number with its
    base; how the monitor renders a number is its own business. *)

Module Sketch.

Definition INPUT : Z := 0.
Definition OUTPUT : Z := 1.
Definition BIN : Z := 2.
Definition DEC : Z := 10.

Inductive sketchE : Type -> Type :=
| Line {X : Type} (e : gpioE X) : sketchE X     (* digitalWrite, digitalRead *)
| PinMode (pin mode : Z) : sketchE unit          (* pinMode(pin, mode) *)
| DelayMs (ms : Z) : sketchE unit                (* delay(ms) *)
| SerialPrint (s : string) : sketchE unit        (* Serial.print(text) *)
| SerialPrintln (s : string) : sketchE unit      (* Serial.println(text) *)
| SerialPrintNumber (n base : Z) : sketchE unit  (* Serial.print(n, base) *)
| SerialPrintlnNumber (n base : Z) : sketchE unit.

Definition perform {X} (e : sketchE X) : prog sketchE X := trigger e.

(** A function written over the lines alone, called from a sketch. *)
Fixpoint lift {A} (p : prog gpioE A) : prog sketchE A :=
  match p with
  | Ret a => Ret a
  | Vis e k => Vis (Line e) (fun x => lift (k x))
  end.

Definition pinMode (pin mode : Z) : prog sketchE unit := perform (PinMode pin mode).
Definition delay (ms : Z) : prog sketchE unit := perform (DelayMs ms).

(** The serial calls among the operations of a trace, in order. *)
Definition isSerial (ev : event sketchE) : bool :=
  match ev with
  | Event e _ =>
      match e with
      | SerialPrint _ | SerialPrintln _
      | SerialPrintNumber _ _ | SerialPrintlnNumber _ _ => true
      | _ => false
      end
  end.

Definition serial (t : list (event sketchE)) : list (event sketchE) :=
  filter isSerial t.

(** Is this a read of a line? *)
Definition isRead (ev : event gpioE) : bool :=
  match ev with
  | Event e _ =>
      match e with
      | DigitalRead _ => true
      | DigitalWrite _ _ => false
      end
  end.

(** The line reads among the operations of a trace. *)
Definition isSample (ev : event sketchE) : bool :=
  match ev with
  | Event e _ =>
      match e with
      | Line (DigitalRead _) => true
      | _ => false
      end
  end.

End Sketch.

Import Sketch.

(** ** OutputShiftRegister.ino, the functions around [osrWriteRegister] *)

Module OutputSketch.

Definition setup : prog sketchE unit :=
  pinMode OSRDataPin OUTPUT ;;
  pinMode OSRLatchPin OUTPUT ;;
  pinMode OSRClockPin OUTPUT ;;
  lift (osrWriteRegister 0) ;;  (* turn off all LEDs *)
  delay 1000.

(** [osrDigitalWrite]'s [static uint8_t outputs] is threaded through. *)
Definition changeOutputsWithDigitalWrite (outputs : Z) : prog sketchE Z :=
  let LED0 := 0 in let LED1 := 1 in let LED2 := 2 in let LED3 := 3 in
  let LED4 := 4 in let LED5 := 5 in let LED6 := 6 in let LED7 := 7 in
  (* Set individual LEDs *)
  outputs <- lift (osrDigitalWrite LED1 HIGH outputs) ;;
  delay 1000 ;;
  outputs <- lift (osrDigitalWrite LED1 LOW outputs) ;;
  outputs <- lift (osrDigitalWrite LED6 HIGH outputs) ;;
  delay 1000 ;;
  outputs <- lift (osrDigitalWrite LED6 LOW outputs) ;;
  delay 1000 ;;
  (* Set multiple LEDs *)
  outputs <- lift (osrDigitalWrite LED0 HIGH outputs) ;;
  outputs <- lift (osrDigitalWrite LED2 HIGH outputs) ;;
  outputs <- lift (osrDigitalWrite LED4 HIGH outputs) ;;
  outputs <- lift (osrDigitalWrite LED6 HIGH outputs) ;;
  delay 1000 ;;
  outputs <- lift (osrDigitalWrite LED0 LOW outputs) ;;
  outputs <- lift (osrDigitalWrite LED2 LOW outputs) ;;
  outputs <- lift (osrDigitalWrite LED4 LOW outputs) ;;
  outputs <- lift (osrDigitalWrite LED6 LOW outputs) ;;
  outputs <- lift (osrDigitalWrite LED1 HIGH outputs) ;;
  outputs <- lift (osrDigitalWrite LED3 HIGH outputs) ;;
  outputs <- lift (osrDigitalWrite LED5 HIGH outputs) ;;
  outputs <- lift (osrDigitalWrite LED7 HIGH outputs) ;;
  delay 1000 ;;
  outputs <- lift (osrDigitalWrite LED1 LOW outputs) ;;
  outputs <- lift (osrDigitalWrite LED3 LOW outputs) ;;
  outputs <- lift (osrDigitalWrite LED5 LOW outputs) ;;
  outputs <- lift (osrDigitalWrite LED7 LOW outputs) ;;
  delay 1000 ;;
  Ret outputs.

Definition changeOutputsWithBinaryValues : prog sketchE unit :=
  (* Set individual LEDs *)
  lift (osrWriteRegister 2) ;;    (* 0b00000010 *)
  delay 1000 ;;
  lift (osrWriteRegister 64) ;;   (* 0b01000000 *)
  delay 1000 ;;
  lift (osrWriteRegister 0) ;;    (* 0b00000000 *)
  delay 1000 ;;
  (* Set multiple LEDs *)
  lift (osrWriteRegister 85) ;;   (* 0b01010101 *)
  delay 1000 ;;
  lift (osrWriteRegister 170) ;;  (* 0b10101010 *)
  delay 1000 ;;
  lift (osrWriteRegister 0) ;;    (* 0b00000000 *)
  delay 1000.

Definition changeOutputsWithDefinedNames : prog sketchE unit :=
  let LED0 := 1 in let LED1 := 2 in let LED2 := 4 in let LED3 := 8 in
  let LED4 := 16 in let LED5 := 32 in let LED6 := 64 in let LED7 := 128 in
  (* Set individual LEDs *)
  lift (osrWriteRegister LED1) ;;
  delay 1000 ;;
  lift (osrWriteRegister LED6) ;;
  delay 1000 ;;
  lift (osrWriteRegister 0) ;;
  delay 1000 ;;
  (* Set multiple LEDs *)
  lift (osrWriteRegister
          (uint8 (Z.lor (Z.lor (Z.lor LED0 LED2) LED4) LED6))) ;;
  delay 1000 ;;
  lift (osrWriteRegister
          (uint8 (Z.lor (Z.lor (Z.lor LED1 LED3) LED5) LED7))) ;;
  delay 1000 ;;
  lift (osrWriteRegister 0) ;;
  delay 1000.

Definition changeOutputsWithBitOperations : prog sketchE unit :=
  let LED0 := 0 in let LED1 := 1 in let LED2 := 2 in let LED3 := 3 in
  let LED4 := 4 in let LED5 := 5 in let LED6 := 6 in let LED7 := 7 in
  let outputs := 0 in
  (* Set individual LEDs *)
  let outputs := bitSet outputs LED1 in
  lift (osrWriteRegister outputs) ;;
  delay 1000 ;;
  let outputs := bitClear outputs LED1 in
  let outputs := bitSet outputs LED6 in
  lift (osrWriteRegister outputs) ;;
  delay 1000 ;;
  let outputs := bitClear outputs LED6 in
  lift (osrWriteRegister outputs) ;;
  delay 1000 ;;
  (* Set multiple LEDs *)
  let outputs := bitSet outputs LED0 in
  let outputs := bitSet outputs LED2 in
  let outputs := bitSet outputs LED4 in
  let outputs := bitSet outputs LED6 in
  lift (osrWriteRegister outputs) ;;
  delay 1000 ;;
  let outputs := bitClear outputs LED0 in
  let outputs := bitClear outputs LED2 in
  let outputs := bitClear outputs LED4 in
  let outputs := bitClear outputs LED6 in
  let outputs := bitSet outputs LED1 in
  let outputs := bitSet outputs LED3 in
  let outputs := bitSet outputs LED5 in
  let outputs := bitSet outputs LED7 in
  lift (osrWriteRegister outputs) ;;
  delay 1000 ;;
  let outputs := bitClear outputs LED1 in
  let outputs := bitClear outputs LED3 in
  let outputs := bitClear outputs LED5 in
  let outputs := bitClear outputs LED7 in
  lift (osrWriteRegister outputs) ;;
  delay 1000.

(** [for (int i = 0; i < 8; i++)]: [n] iterations are left at index [i]. *)
Fixpoint cycleUp (n : nat) (i outputs : Z) : prog sketchE Z :=
  match n with
  | O => Ret outputs
  | S n' =>
      let outputs := bitSet outputs i in
      lift (osrWriteRegister outputs) ;;
      let outputs := bitClear outputs i in
      (if i <? 7 then delay 100 else Ret tt) ;;
      cycleUp n' (i + 1) outputs
  end.

(** [for (int i = 7; i >= 0; i--)]: [n] iterations are left at index [i]. *)
Fixpoint cycleDown (n : nat) (i outputs : Z) : prog sketchE Z :=
  match n with
  | O => Ret outputs
  | S n' =>
      let outputs := bitSet outputs i in
      lift (osrWriteRegister outputs) ;;
      let outputs := bitClear outputs i in
      (if 0 <? i then delay 100 else Ret tt) ;;
      cycleDown n' (i - 1) outputs
  end.

Definition cycleLEDs : prog sketchE Z :=
  let outputs := 0 in
  outputs <- cycleUp 8 0 outputs ;;
  cycleDown 8 7 outputs.

(** One pass of [loop]; the retained byte of [osrDigitalWrite] goes in and
    comes out. *)
Definition loop (retained : Z) : prog sketchE Z :=
  retained <- changeOutputsWithDigitalWrite retained ;;
  changeOutputsWithBinaryValues ;;
  changeOutputsWithDefinedNames ;;
  changeOutputsWithBitOperations ;;
  Ret retained.

Fixpoint loops (n : nat) (retained : Z) : prog sketchE Z :=
  match n with
  | O => Ret retained
  | S n' => retained <- loop retained ;; loops n' retained
  end.

(** The sketch from power-up: [setup], then [n] passes of [loop]. *)
Definition sketch (n : nat) : prog sketchE Z :=
  setup ;; loops n 0.

(** The '595 with its LEDs watched: at every [delay] the pattern on the
    outputs and the length of the pause are noted. *)
Definition watched : Type := HC595.hc595 * list (Z * Z).

Definition bench : handler sketchE watched := fun X e =>
  match e in sketchE X return watched -> X * watched with
  | Line e' => fun w =>
      let '(x, c) := HC595.board _ e' (fst w) in (x, (c, snd w))
  | DelayMs ms => fun w =>
      (tt, (fst w, snd w ++ [(HC595.outputs (fst w), ms)]))
  | PinMode _ _ => fun w => (tt, w)
  | SerialPrint _ => fun w => (tt, w)
  | SerialPrintln _ => fun w => (tt, w)
  | SerialPrintNumber _ _ => fun w => (tt, w)
  | SerialPrintlnNumber _ _ => fun w => (tt, w)
  end.

(** Are two chips in the same state? *)
Definition sameChip (c1 c2 : HC595.hc595) : bool :=
  (HC595.shiftReg c1 =? HC595.shiftReg c2)
  && (HC595.outputs c1 =? HC595.outputs c2)
  && Bool.eqb (HC595.ser c1) (HC595.ser c2)
  && Bool.eqb (HC595.srclk c1) (HC595.srclk c2)
  && Bool.eqb (HC595.rclk c1) (HC595.rclk c2).

(** What one pass of any of the four approaches shows. *)
Definition pattern : list (Z * Z) :=
  [(2, 1000); (64, 1000); (0, 1000); (85, 1000); (170, 1000); (0, 1000)].

End OutputSketch.

(** ** InputShiftRegister.ino, the functions around [isrReadRegister] *)

Module InputSketch.

Definition InputA : Z := 0.
Definition InputB : Z := 1.
Definition InputC : Z := 2.
Definition InputD : Z := 3.
Definition InputE : Z := 4.
Definition InputF : Z := 5.
Definition InputG : Z := 6.
Definition InputH : Z := 7.

(** [x ? "HIGH" : "LOW"] *)
Definition highLow (x : Z) : string :=
  if x =? 0 then "LOW"%string else "HIGH"%string.

Definition readInputsWithDigitalRead : prog sketchE unit :=
  perform (SerialPrint "Input A = "%string) ;;
  v <- lift (isrDigitalRead InputA) ;; perform (SerialPrintln (highLow v)) ;;
  perform (SerialPrint "Input B = "%string) ;;
  v <- lift (isrDigitalRead InputB) ;; perform (SerialPrintln (highLow v)) ;;
  perform (SerialPrint "Input C = "%string) ;;
  v <- lift (isrDigitalRead InputC) ;; perform (SerialPrintln (highLow v)) ;;
  perform (SerialPrint "Input D = "%string) ;;
  v <- lift (isrDigitalRead InputD) ;; perform (SerialPrintln (highLow v)) ;;
  perform (SerialPrint "Input E = "%string) ;;
  v <- lift (isrDigitalRead InputE) ;; perform (SerialPrintln (highLow v)) ;;
  perform (SerialPrint "Input F = "%string) ;;
  v <- lift (isrDigitalRead InputF) ;; perform (SerialPrintln (highLow v)) ;;
  perform (SerialPrint "Input G = "%string) ;;
  v <- lift (isrDigitalRead InputG) ;; perform (SerialPrintln (highLow v)) ;;
  perform (SerialPrint "Input H = "%string) ;;
  v <- lift (isrDigitalRead InputH) ;; perform (SerialPrintln (highLow v)) ;;
  perform (SerialPrintln ""%string).

Definition readInputsWithBinaryValues : prog sketchE unit :=
  perform (SerialPrint "Inputs: 0b"%string) ;;
  v <- lift isrReadRegister ;;
  perform (SerialPrintlnNumber v BIN).

Definition readInputsWithDefinedNamesAndBitOperations : prog sketchE unit :=
  (* Read all inputs from shift register *)
  inputs <- lift isrReadRegister ;;
  (* Read and print individual inputs *)
  perform (SerialPrint "Input A = "%string) ;;
  perform (SerialPrintln (highLow (bitRead inputs InputA))) ;;
  perform (SerialPrint "Input B = "%string) ;;
  perform (SerialPrintln (highLow (bitRead inputs InputB))) ;;
  perform (SerialPrint "Input C = "%string) ;;
  perform (SerialPrintln (highLow (bitRead inputs InputC))) ;;
  perform (SerialPrint "Input D = "%string) ;;
  perform (SerialPrintln (highLow (bitRead inputs InputD))) ;;
  perform (SerialPrint "Input E = "%string) ;;
  perform (SerialPrintln (highLow (bitRead inputs InputE))) ;;
  perform (SerialPrint "Input F = "%string) ;;
  perform (SerialPrintln (highLow (bitRead inputs InputF))) ;;
  perform (SerialPrint "Input G = "%string) ;;
  perform (SerialPrintln (highLow (bitRead inputs InputG))) ;;
  perform (SerialPrint "Input H = "%string) ;;
  perform (SerialPrintln (highLow (bitRead inputs InputH))) ;;
  perform (SerialPrintln ""%string).

(** [for (int i = 7; i >= 0; i--) Serial.print(bitRead(currentInputs, i))]:
    [n] iterations are left at index [i]. *)
Fixpoint printBits (n : nat) (i currentInputs : Z) : prog sketchE unit :=
  match n with
  | O => Ret tt
  | S n' =>
      perform (SerialPrintNumber (bitRead currentInputs i) DEC) ;;
      printBits n' (i - 1) currentInputs
  end.

(** [static uint8_t previousInputs] goes in and comes out. *)
Definition readAndPrintInputsOnChange (previousInputs : Z) : prog sketchE Z :=
  currentInputs <- lift isrReadRegister ;;
  if negb (currentInputs =? previousInputs) then
    perform (SerialPrint "Inputs: 0b"%string) ;;
    printBits 8 7 currentInputs ;;
    perform (SerialPrintln ""%string) ;;
    Ret currentInputs
  else Ret previousInputs.

(** The '165 under a sketch: only the line operations reach it. *)
Definition bench : handler sketchE HC165.hc165 := fun X e =>
  match e in sketchE X return HC165.hc165 -> X * HC165.hc165 with
  | Line e' => fun c => HC165.board _ e' c
  | PinMode _ _ => fun c => (tt, c)
  | DelayMs _ => fun c => (tt, c)
  | SerialPrint _ => fun c => (tt, c)
  | SerialPrintln _ => fun c => (tt, c)
  | SerialPrintNumber _ _ => fun c => (tt, c)
  | SerialPrintlnNumber _ _ => fun c => (tt, c)
  end.

(** A line operation of a lifted function, as the sketch's trace has it. *)
Definition onLine (ev : event gpioE) : event sketchE :=
  match ev with Event e x => Event (Line e) x end.

(** What a function says on the serial monitor, and how many times it
    samples the data line, run on a '165. *)
Definition said {A} (p : prog sketchE A) (c : HC165.hc165) : list (event sketchE) :=
  serial (trace bench p c).
Definition sampled {A} (p : prog sketchE A) (c : HC165.hc165) : nat :=
  List.length (filter isSample (trace bench p c)).

(** The report of the eight inputs of the byte [x], by name, closed by an
    empty line. *)
Definition inputNames : list (string * Z) :=
  [("Input A = "%string, InputA); ("Input B = "%string, InputB);
   ("Input C = "%string, InputC); ("Input D = "%string, InputD);
   ("Input E = "%string, InputE); ("Input F = "%string, InputF);
   ("Input G = "%string, InputG); ("Input H = "%string, InputH)].

Definition report (x : Z) : list (event sketchE) :=
  flat_map (fun ni =>
              [Event (SerialPrint (fst ni)) tt;
               Event (SerialPrintln (highLow (bitRead x (snd ni)))) tt])
           inputNames
  ++ [Event (SerialPrintln ""%string) tt].

(** The digits of the byte [x], bit 7 first. *)
Definition digits (x : Z) : list (event sketchE) :=
  map (fun i => Event (SerialPrintNumber (bitRead x i) DEC) tt)
      [7; 6; 5; 4; 3; 2; 1; 0].

(** The numbers among what was printed, in order, and the number their
    digits read as in base 2. *)
Definition printedNumbers (t : list (event sketchE)) : list Z :=
  flat_map (fun ev =>
              match ev with
              | Event e _ =>
                  match e with
                  | SerialPrintNumber n _ => [n]
                  | _ => []
                  end
              end) t.

Definition readsAs (ds : list Z) : Z :=
  fold_left (fun acc d => 2 * acc + d) ds 0.

(** The '165 is latching the byte [x] on its inputs. *)
Definition latching (x : Z) (c : HC165.hc165) : Prop :=
  HC165.shld c = false /\ HC165.inputs c = x.

(** The switches are moved to [x] between two calls. *)
Definition setInputs (x : Z) (c : HC165.hc165) : HC165.hc165 :=
  {| HC165.inputs := x; HC165.shiftReg := HC165.shiftReg c;
     HC165.shld := HC165.shld c; HC165.clk := HC165.clk c |}.

End InputSketch.

(** ** PortExpander.ino: [loop] with interrupts between its passes *)

Module Rounds.

(** Is this a call of [mcp23017.digitalWrite], to whatever pin? *)
Definition isDigitalWrite (ce : context * event op) : bool :=
  match snd ce with
  | Event e _ =>
      match e with
      | McpDigitalWrite _ _ => true
      | _ => false
      end
  end.

(** Before each pass of [loop] the interrupt fires the given number of
    times; the pass itself is not interrupted. *)
Fixpoint rounds {D} `{MCP23017 D} (ks : list nat)
         (c : config (E := op) (W := mcu D)) : config (E := op) (W := mcu D) :=
  match ks with
  | [] => c
  | k :: ks' =>
      let c1 := interrupts world mcp23017ChangeDetectedOnPortB k c in
      rounds ks'
        (final world loop (fst c1),
         snd c1 ++ map (pair InLoop) (trace world loop (fst c1)))
  end.

(** How many calls of [mcp23017.digitalWrite] a history holds, and how
    many of the rounds saw the interrupt fire at least once. *)
Definition digitalWrites (t : list (context * event op)) : nat :=
  List.length (filter isDigitalWrite t).

Definition fired (ks : list nat) : nat :=
  List.length (filter (fun k => negb (Nat.eqb k 0)) ks).

End Rounds.

(** * Proofs *)

(** ** Programs *)

Lemma run_bind {E W A B} (h : handler E W) (m : prog E A) (f : A -> prog E B) w :
  run h (bind m f) w =
  let '(a, w1, t1) := run h m w in
  let '(b, w2, t2) := run h (f a) w1 in
  (b, w2, t1 ++ t2).
Proof.
  revert w; induction m as [a | X e k IH]; intros w; cbn.
  - destruct (run h (f a) w) as [[b w2] t2]; reflexivity.
  - destruct (h X e w) as [x w1]. rewrite IH.
    destruct (run h (k x) w1) as [[a w2] t1].
    destruct (run h (f a) w2) as [[b w3] t2]; reflexivity.
Qed.

(** ** Bits of a byte *)

Lemma bitRead_testbit value bit :
  0 <= bit -> bitRead value bit = Z.b2z (Z.testbit value bit).
Proof.
  intros Hb. unfold bitRead.
  change 1 with (Z.ones 1). rewrite Z.land_ones by lia.
  rewrite Z.testbit_spec' by lia. rewrite Z.shiftr_div_pow2 by lia.
  reflexivity.
Qed.

Lemma byte_testbit_high b j : 0 <= b < 256 -> 8 <= j -> Z.testbit b j = false.
Proof.
  intros Hb Hj. rewrite <- (Z.mod_small b (2 ^ 8)) by (change (2 ^ 8) with 256; lia).
  apply Z.mod_pow2_bits_high; lia.
Qed.

Lemma bitSet_testbit b i j :
  0 <= i < 32 -> 0 <= j ->
  Z.testbit (bitSet b i) j = (j <? 8) && (Z.testbit b j || (i =? j)).
Proof.
  intros Hi Hj. unfold bitSet, uint8, ulong.
  rewrite Z.testbit_mod_pow2 by lia. f_equal.
  rewrite Z.lor_spec. f_equal.
  rewrite Z.shiftl_1_l, Z.mod_small.
  - apply Z.pow2_bits_eqb; lia.
  - split; [apply Z.pow_nonneg; lia | apply Z.pow_lt_mono_r; lia].
Qed.

Lemma bitClear_testbit b i j :
  0 <= i < 32 -> 0 <= j ->
  Z.testbit (bitClear b i) j = (j <? 8) && (Z.testbit b j && negb (i =? j)).
Proof.
  intros Hi Hj. unfold bitClear, uint8, ulong.
  rewrite Z.testbit_mod_pow2 by lia.
  destruct (Z.ltb_spec j 8) as [Hlt | Hge]; [cbn [andb] | reflexivity].
  rewrite Z.land_spec. f_equal.
  rewrite Z.shiftl_1_l, (Z.mod_small (2 ^ i)).
  2:{ split; [apply Z.pow_nonneg; lia | apply Z.pow_lt_mono_r; lia]. }
  rewrite Z.testbit_mod_pow2 by lia.
  rewrite Z.lnot_spec by lia. rewrite Z.pow2_bits_eqb by lia.
  destruct (Z.ltb_spec j 32); [reflexivity | lia].
Qed.

Lemma bitSet_byte b i : 0 <= bitSet b i < 256.
Proof. unfold bitSet, uint8. apply Z.mod_pos_bound. reflexivity. Qed.

Lemma bitClear_byte b i : 0 <= bitClear b i < 256.
Proof. unfold bitClear, uint8. apply Z.mod_pos_bound. reflexivity. Qed.

Lemma byte_eq_bits a b :
  0 <= a < 256 -> 0 <= b < 256 ->
  (forall j, 0 <= j < 8 -> Z.testbit a j = Z.testbit b j) -> a = b.
Proof.
  intros Ha Hb H. apply Z.bits_inj'. intros j Hj.
  destruct (Z.lt_ge_cases j 8).
  - apply H; lia.
  - rewrite !byte_testbit_high by lia. reflexivity.
Qed.

Lemma bitSet_small b i : 0 <= b < 256 -> 0 <= i < 8 -> bitSet b i = Z.setbit b i.
Proof.
  intros Hb Hi. apply Z.bits_inj'; intros j Hj.
  rewrite bitSet_testbit, Z.setbit_eqb by lia.
  destruct (Z.ltb_spec j 8) as [Hlt | Hge]; cbn [andb].
  - apply orb_comm.
  - rewrite byte_testbit_high by lia.
    destruct (Z.eqb_spec i j); [lia | reflexivity].
Qed.

Lemma bitClear_small b i : 0 <= b < 256 -> 0 <= i -> bitClear b i = Z.clearbit b i.
Proof.
  intros Hb Hi. apply Z.bits_inj'; intros j Hj.
  destruct (Z.lt_ge_cases i 32) as [Hlt | Hge].
  - rewrite bitClear_testbit, Z.clearbit_eqb by lia.
    destruct (Z.ltb_spec j 8); cbn [andb]; [reflexivity |].
    rewrite byte_testbit_high by lia. reflexivity.
  - rewrite Z.clearbit_eqb by lia. unfold bitClear, uint8, ulong.
    rewrite Z.testbit_mod_pow2 by lia.
    destruct (Z.ltb_spec j 8); cbn [andb].
    + rewrite Z.land_spec. f_equal.
      rewrite Z.testbit_mod_pow2, Z.lnot_spec, Z.testbit_mod_pow2 by lia.
      rewrite Z.shiftl_1_l, Z.pow2_bits_eqb by lia.
      destruct (Z.ltb_spec j 32); [| lia]. cbn [andb]. reflexivity.
    + rewrite byte_testbit_high by lia. reflexivity.
Qed.

(** ** [osrDigitalWrite] *)

Lemma osrDigitalWrite_run {W} (h : handler gpioE W) pin value outputs w :
  run h (osrDigitalWrite pin value outputs) w =
  let outputs' :=
    if value =? HIGH then bitSet outputs pin
    else if value =? LOW then bitClear outputs pin
    else outputs in
  (outputs', final h (osrWriteRegister outputs') w,
   trace h (osrWriteRegister outputs') w).
Proof.
  unfold final, trace, osrDigitalWrite.
  set (o := if value =? HIGH then _ else _). cbv zeta.
  rewrite run_bind.
  destruct (run h (osrWriteRegister o) w) as [[[] w1] t1].
  cbn. rewrite app_nil_r. reflexivity.
Qed.

Lemma osrDigitalWrite_result {W} (h : handler gpioE W) pin value outputs w :
  result h (osrDigitalWrite pin value outputs) w =
  if value =? HIGH then bitSet outputs pin
  else if value =? LOW then bitClear outputs pin
  else outputs.
Proof. unfold result. rewrite osrDigitalWrite_run. reflexivity. Qed.

(** C5: setting bit [i] and then clearing it gives [b] with bit [i] cleared,
    and a bit reads back as it was written; the same through two calls of
    [osrDigitalWrite] on any board. *)
Theorem bit_write_round_trip (b i : Z) :
  0 <= b < 256 -> 0 <= i <= 7 ->
  bitClear (bitSet b i) i = bitClear b i /\
  bitClear b i = Z.clearbit b i /\
  bitRead (bitSet b i) i = HIGH /\
  bitRead (bitClear b i) i = LOW /\
  forall W (h : handler gpioE W) w w',
    result h (osrDigitalWrite i LOW (result h (osrDigitalWrite i HIGH b) w)) w'
    = bitClear b i.
Proof.
  intros Hb Hi.
  assert (Hcs : bitClear (bitSet b i) i = bitClear b i).
  { rewrite !bitClear_small by (try apply bitSet_byte; lia).
    rewrite bitSet_small by lia.
    apply Z.bits_inj'; intros j Hj.
    rewrite !Z.clearbit_eqb, Z.setbit_eqb by lia.
    destruct (Z.eqb_spec i j); cbn; rewrite ?andb_false_r, ?andb_true_r; reflexivity. }
  split; [exact Hcs |].
  split; [apply bitClear_small; lia |].
  split; [| split].
  - rewrite bitRead_testbit, bitSet_small, Z.setbit_eq by lia. reflexivity.
  - rewrite bitRead_testbit, bitClear_small, Z.clearbit_eq by lia. reflexivity.
  - intros W h w w'.
    rewrite !osrDigitalWrite_result. exact Hcs.
Qed.

Lemma bit_write_round_trip_witness :
  bitClear (bitSet 5 1) 1 = bitClear 5 1 /\ bitRead (bitSet 5 1) 1 = HIGH.
Proof.
  destruct (bit_write_round_trip 5 1) as (H1 & _ & H3 & _); [lia | lia |].
  split; [exact H1 | exact H3].
Defined.

(** ** Line operations of the shift-register transactions *)

Lemma trace_bind {E W A B} (h : handler E W) (m : prog E A) (f : A -> prog E B) w :
  trace h (bind m f) w = trace h m w ++ trace h (f (result h m w)) (final h m w).
Proof.
  unfold trace, result, final. rewrite run_bind.
  destruct (run h m w) as [[a w1] t1]. cbn.
  destruct (run h (f a) w1) as [[b w2] t2]. reflexivity.
Qed.

Lemma final_bind {E W A B} (h : handler E W) (m : prog E A) (f : A -> prog E B) w :
  final h (bind m f) w = final h (f (result h m w)) (final h m w).
Proof.
  unfold result, final. rewrite run_bind.
  destruct (run h m w) as [[a w1] t1]. cbn.
  destruct (run h (f a) w1) as [[b w2] t2]. reflexivity.
Qed.

Lemma result_bind {E W A B} (h : handler E W) (m : prog E A) (f : A -> prog E B) w :
  result h (bind m f) w = result h (f (result h m w)) (final h m w).
Proof.
  unfold result, final. rewrite run_bind.
  destruct (run h m w) as [[a w1] t1]. cbn.
  destruct (run h (f a) w1) as [[b w2] t2]. reflexivity.
Qed.

Lemma trace_digitalWrite {W} (h : handler gpioE W) pin val w :
  trace h (digitalWrite pin val) w = [drives pin (negb (val =? LOW))].
Proof.
  unfold trace, digitalWrite, gpio, trigger. cbn.
  destruct (h unit _ w) as [[] w1]. reflexivity.
Qed.

Lemma final_digitalWrite {W} (h : handler gpioE W) pin val w :
  final h (digitalWrite pin val) w
  = snd (h unit (DigitalWrite pin (negb (val =? LOW))) w).
Proof.
  unfold final, digitalWrite, gpio, trigger. cbn.
  destruct (h unit _ w) as [[] w1]. reflexivity.
Qed.

Lemma land_pow2 a k :
  0 <= k -> Z.land a (2 ^ k) = if Z.testbit a k then 2 ^ k else 0.
Proof.
  intros Hk. apply Z.bits_inj'; intros j Hj.
  rewrite Z.land_spec, Z.pow2_bits_eqb by lia.
  destruct (Z.eqb_spec k j) as [-> | Hne].
  - destruct (Z.testbit a j) eqn:Ha; cbn.
    + symmetry. apply Z.pow2_bits_true; lia.
    + symmetry. apply Z.bits_0.
  - rewrite andb_false_r. destruct (Z.testbit a k).
    + symmetry. apply Z.pow2_bits_false; lia.
    + symmetry. apply Z.bits_0.
Qed.

Lemma mask_level val k :
  0 <= k -> negb (truth (Z.land val (Z.shiftl 1 k)) =? LOW) = Z.testbit val k.
Proof.
  intros Hk. rewrite Z.shiftl_1_l, land_pow2 by lia. unfold truth.
  destruct (Z.testbit val k).
  - destruct (Z.eqb_spec (2 ^ k) 0) as [H0 | _]; [| reflexivity].
    pose proof (Z.pow_pos_nonneg 2 k). lia.
  - reflexivity.
Qed.

Lemma flat_map_over_map {X Y Z'} (f : Y -> list Z') (g : X -> Y) l :
  flat_map f (map g l) = flat_map (fun x => f (g x)) l.
Proof. induction l as [| x l IH]; cbn; [| rewrite IH]; reflexivity. Qed.

(** One bit of a transfer: the data line, then a clock pulse. *)
Lemma shiftOut_loop_MSBFIRST_trace {W} (h : handler gpioE W) n dataPin clockPin val :
  forall i w, 0 <= i -> i + Z.of_nat n <= 8 ->
  trace h (shiftOut_loop n dataPin clockPin MSBFIRST val i) w =
  flat_map (fun k => [drives dataPin (Z.testbit val (7 - (i + Z.of_nat k)));
                      drives clockPin true; drives clockPin false])
           (seq 0 n).
Proof.
  induction n as [| n IH]; intros i w Hi Hn; [reflexivity |].
  cbn [shiftOut_loop]. change (MSBFIRST =? LSBFIRST) with false. cbv iota.
  rewrite !trace_bind, !trace_digitalWrite, IH by lia.
  rewrite mask_level by lia.
  cbn [seq flat_map app]. rewrite Z.add_0_r.
  do 3 f_equal. rewrite <- seq_shift, flat_map_over_map.
  apply flat_map_ext. intros k.
  replace (i + 1 + Z.of_nat k) with (i + Z.of_nat (S k)) by lia. reflexivity.
Qed.


(** ** The 74HC595 under [osrWriteRegister] *)

Lemma final_after (p : prog gpioE unit) c :
  final HC595.board p c = HC595.after (trace HC595.board p c) c.
Proof.
  unfold final, trace, HC595.after. revert c.
  induction p as [a | X e k IH]; intros c; [reflexivity |].
  cbn [run]. destruct (HC595.board X e c) as [x c1] eqn:Hb.
  specialize (IH x c1). destruct (run HC595.board (k x) c1) as [[a c2] t].
  cbn [fst snd] in *. cbn [fold_left]. rewrite Hb. exact IH.
Qed.

(** No rising latch, no change of the outputs. *)
Lemma after_outputs t :
  forall c, forallb (fun ev => negb (HC595.raisesLatch ev)) t = true ->
  HC595.outputs (HC595.after t c) = HC595.outputs c.
Proof.
  unfold HC595.after.
  induction t as [| ev t IH]; intros c Ht; [reflexivity |].
  cbn [forallb] in Ht. apply andb_prop in Ht as [Hev Ht].
  cbn [fold_left]. rewrite IH by exact Ht.
  destruct ev as [X e x]. destruct e as [pin level | pin]; [| reflexivity].
  cbn in Hev |- *. unfold HC595.drive.
  destruct (pin =? OSRDataPin); [reflexivity |].
  destruct (pin =? OSRClockPin); [reflexivity |].
  destruct (pin =? OSRLatchPin); [| reflexivity].
  cbn in Hev. destruct level; [discriminate | cbn].
  rewrite andb_false_r. reflexivity.
Qed.

Lemma shifted_bit sr (b : bool) j :
  0 <= j ->
  Z.testbit (uint8 (Z.lor (Z.shiftl sr 1) (Z.b2z b))) j
  = (j <? 8) && (if j =? 0 then b else Z.testbit sr (j - 1)).
Proof.
  intros Hj. unfold uint8. rewrite Z.testbit_mod_pow2 by lia. f_equal.
  rewrite Z.lor_spec, Z.shiftl_spec by lia.
  destruct (Z.eqb_spec j 0) as [-> | Hne].
  - rewrite Z.testbit_neg_r by lia. cbn [orb]. apply Z.b2z_bit0.
  - replace (Z.testbit (Z.b2z b) j) with false; [apply orb_false_r |].
    symmetry. destruct b; cbn [Z.b2z].
    + apply (Z.pow2_bits_false 0); lia.
    + apply Z.bits_0.
Qed.

Lemma shiftOut_loop_595 val n :
  forall i c, 0 <= i -> i + Z.of_nat n = 8 -> HC595.srclk c = false ->
  let c' := final HC595.board
              (shiftOut_loop n OSRDataPin OSRClockPin MSBFIRST val i) c in
  (forall j, 0 <= j < 8 ->
     Z.testbit (HC595.shiftReg c') j
     = if j <? Z.of_nat n then Z.testbit val j
       else Z.testbit (HC595.shiftReg c) (j - Z.of_nat n)) /\
  ((0 < n)%nat -> 0 <= HC595.shiftReg c' < 256) /\
  HC595.srclk c' = false /\ HC595.rclk c' = HC595.rclk c.
Proof.
  induction n as [| n IH]; intros i c Hi Hn Hclk; cbv zeta.
  - cbn. repeat split; try lia; try assumption.
    intros j Hj. destruct (Z.ltb_spec j 0); [lia |]. f_equal; lia.
  - cbn [shiftOut_loop]. change (MSBFIRST =? LSBFIRST) with false. cbv iota.
    rewrite !final_bind, !final_digitalWrite, mask_level by lia.
    cbn [HC595.board snd].
    remember (HC595.drive OSRClockPin _ (HC595.drive OSRClockPin _ (HC595.drive OSRDataPin _ c))) as c3 eqn:E3.
    assert (H3 : HC595.shiftReg c3
                 = uint8 (Z.lor (Z.shiftl (HC595.shiftReg c) 1)
                                (Z.b2z (Z.testbit val (7 - i))))
                 /\ HC595.srclk c3 = false /\ HC595.rclk c3 = HC595.rclk c).
    { rewrite E3. unfold HC595.drive. cbn. rewrite Hclk. cbn. auto. }
    clear E3.
    destruct H3 as (Hsr & Hc3 & Hr3).
    destruct (IH (i + 1) c3 ltac:(lia) ltac:(lia) Hc3) as (Hbits & _ & Hc' & Hr').
    split; [| split; [| split]].
    + intros j Hj. rewrite Hbits by lia.
      destruct (Z.ltb_spec j (Z.of_nat n)); destruct (Z.ltb_spec j (Z.of_nat (S n))); try lia.
      * reflexivity.
      * rewrite Hsr, shifted_bit by lia.
        destruct (Z.ltb_spec (j - Z.of_nat n) 8); [| lia]. cbn [andb].
        destruct (Z.eqb_spec (j - Z.of_nat n) 0); [| lia].
        f_equal. lia.
      * rewrite Hsr, shifted_bit by lia.
        destruct (Z.ltb_spec (j - Z.of_nat n) 8); [| lia]. cbn [andb].
        destruct (Z.eqb_spec (j - Z.of_nat n) 0); [lia |].
        f_equal. lia.
    + intros _. destruct n as [| n'].
      * cbn. rewrite Hsr. apply Z.mod_pos_bound. reflexivity.
      * destruct (IH (i + 1) c3 ltac:(lia) ltac:(lia) Hc3) as (_ & Hb & _).
        apply Hb. lia.
    + exact Hc'.
    + rewrite Hr'. exact Hr3.
Qed.

Lemma forallb_firstn {X} (f : X -> bool) n :
  forall l, forallb f l = true -> forallb f (firstn n l) = true.
Proof.
  induction n as [| n IH]; intros [| x l] H; try reflexivity.
  cbn in H |- *. apply andb_prop in H as [Hx Hl].
  rewrite Hx, IH by exact Hl. reflexivity.
Qed.

Lemma osrWriteRegister_595 outputs c :
  0 <= outputs < 256 -> HC595.srclk c = false ->
  let c' := final HC595.board (osrWriteRegister outputs) c in
  HC595.outputs c' = outputs /\ HC595.shiftReg c' = outputs /\
  HC595.srclk c' = false /\ HC595.rclk c' = true.
Proof.
  intros Hb Hclk. unfold osrWriteRegister, shiftOut.
  rewrite !final_bind, !final_digitalWrite. cbn [HC595.board snd].
  remember (HC595.drive OSRLatchPin (negb (LOW =? LOW)) c) as c1 eqn:E1.
  assert (H1 : HC595.srclk c1 = false /\ HC595.rclk c1 = false).
  { rewrite E1. cbn. auto. }
  destruct H1 as [Hc1 Hr1]. clear E1.
  destruct (shiftOut_loop_595 outputs 8 0 c1 ltac:(lia) ltac:(reflexivity) Hc1)
    as (Hbits & Hrange & Hc2 & Hr2).
  remember (final HC595.board (shiftOut_loop 8 _ _ _ _ _) c1) as c2 eqn:E2.
  clear E2. rewrite Hr1 in Hr2.
  assert (Hsr : HC595.shiftReg c2 = outputs).
  { apply byte_eq_bits; [apply Hrange; lia | exact Hb |].
    intros j Hj. rewrite Hbits by lia.
    destruct (Z.ltb_spec j (Z.of_nat 8)); [reflexivity | lia]. }
  unfold HC595.drive. cbn. rewrite Hr2. cbn. auto.
Qed.

(** C7: [osrWriteRegister] drives the latch low, presents the eight bits
    from bit 7 down to bit 0, each followed by a clock pulse, and drives the
    latch high last; on the '595 the outputs keep their old value during
    every proper prefix of these operations and show the new byte after the
    last one. *)
Theorem osrWriteRegister_sequence (outputs : Z) {W} (h : handler gpioE W) (w : W) :
  0 <= outputs < 256 ->
  let t := trace h (osrWriteRegister outputs) w in
  t = drives OSRLatchPin false ::
      flat_map (fun i => [drives OSRDataPin (Z.testbit outputs i);
                          drives OSRClockPin true; drives OSRClockPin false])
               [7; 6; 5; 4; 3; 2; 1; 0]
      ++ [drives OSRLatchPin true] /\
  forall c : HC595.hc595,
    (forall n, (n < length t)%nat ->
       HC595.outputs (HC595.after (firstn n t) c) = HC595.outputs c) /\
    (HC595.srclk c = false -> HC595.outputs (HC595.after t c) = outputs).
Proof.
  intros Hb t.
  assert (Ht : forall W' (h' : handler gpioE W') w',
             trace h' (osrWriteRegister outputs) w' =
             drives OSRLatchPin false ::
             flat_map (fun i => [drives OSRDataPin (Z.testbit outputs i);
                                 drives OSRClockPin true; drives OSRClockPin false])
                      [7; 6; 5; 4; 3; 2; 1; 0]
             ++ [drives OSRLatchPin true]).
  { intros W' h' w'. unfold osrWriteRegister, shiftOut.
    rewrite !trace_bind, !trace_digitalWrite, shiftOut_loop_MSBFIRST_trace by lia.
    reflexivity. }
  subst t. split; [exact (Ht _ h w) |]. intros c. split.
  - intros n Hn. rewrite Ht in Hn |- *.
    cbn [flat_map app length] in Hn.
    apply after_outputs. cbn [flat_map app].
    match goal with
    | |- forallb _ (firstn n ?l) = true =>
        change l with (removelast l ++ [drives OSRLatchPin true])
    end.
    rewrite firstn_app. cbn [removelast length].
    replace (n - 25)%nat with O by lia. cbn [firstn]. rewrite app_nil_r.
    apply forallb_firstn. vm_compute. reflexivity.
  - intros Hclk. rewrite Ht, <- (Ht _ HC595.board c), <- final_after.
    exact (proj1 (osrWriteRegister_595 outputs c Hb Hclk)).
Qed.

Lemma osrWriteRegister_sequence_witness :
  let c := HC595.Build_hc595 77 5 true false true in
  0 <= 2 < 256 /\ HC595.srclk c = false /\
  HC595.outputs (HC595.after (trace HC595.board (osrWriteRegister 2) c) c) = 2.
Proof.
  intros c. split; [lia |]. split; [reflexivity |].
  refine (proj2 (proj2 (osrWriteRegister_sequence 2 HC595.board c _) c) _).
  - lia.
  - reflexivity.
Defined.

(** ** [osrDigitalWrite] on the lines *)

Lemma osrWriteRegister_trace {W} (h : handler gpioE W) outputs w :
  trace h (osrWriteRegister outputs) w =
  drives OSRLatchPin false ::
  flat_map (fun i => [drives OSRDataPin (Z.testbit outputs i);
                      drives OSRClockPin true; drives OSRClockPin false])
           [7; 6; 5; 4; 3; 2; 1; 0]
  ++ [drives OSRLatchPin true].
Proof.
  unfold osrWriteRegister, shiftOut.
  rewrite !trace_bind, !trace_digitalWrite, shiftOut_loop_MSBFIRST_trace by lia.
  reflexivity.
Qed.

Lemma osrDigitalWrite_byte pin value outputs :
  0 <= outputs < 256 ->
  0 <= (if value =? HIGH then bitSet outputs pin
        else if value =? LOW then bitClear outputs pin
        else outputs) < 256.
Proof.
  intros Hout.
  destruct (value =? HIGH); [apply bitSet_byte |].
  destruct (value =? LOW); [apply bitClear_byte | exact Hout].
Qed.

(** C9: for a pin from 0 to 7 and a byte [value], [osrDigitalWrite] sets
    bit [pin] for HIGH, clears it for LOW and keeps the retained byte for
    any other value; no other bit changes.  It then drives the latch low,
    presents the eight bits of the new byte from bit 7 down to bit 0, each
    followed by a clock pulse, and drives the latch high: on the '595 the
    outputs show the new byte. *)
Theorem osrDigitalWrite_frame (pin value outputs : Z)
        {W} (h : handler gpioE W) (w : W) :
  0 <= pin <= 7 -> 0 <= value < 256 -> 0 <= outputs < 256 ->
  let outputs' := result h (osrDigitalWrite pin value outputs) w in
  (value = HIGH -> Z.testbit outputs' pin = true) /\
  (value = LOW -> Z.testbit outputs' pin = false) /\
  (value <> HIGH -> value <> LOW -> outputs' = outputs) /\
  (forall j, j <> pin -> Z.testbit outputs' j = Z.testbit outputs j) /\
  0 <= outputs' < 256 /\
  trace h (osrDigitalWrite pin value outputs) w
    = drives OSRLatchPin false ::
      flat_map (fun i => [drives OSRDataPin (Z.testbit outputs' i);
                          drives OSRClockPin true; drives OSRClockPin false])
               [7; 6; 5; 4; 3; 2; 1; 0]
      ++ [drives OSRLatchPin true] /\
  forall c : HC595.hc595,
    HC595.srclk c = false ->
    HC595.outputs (final HC595.board (osrDigitalWrite pin value outputs) c)
      = outputs' /\
    result HC595.board (osrDigitalWrite pin value outputs) c = outputs'.
Proof.
  intros Hpin Hval Hout outputs'. subst outputs'.
  pose proof (osrDigitalWrite_byte pin value outputs Hout) as Hbyte.
  rewrite osrDigitalWrite_result.
  assert (HL : LOW <> HIGH) by discriminate.
  split; [| split; [| split; [| split; [| split; [exact Hbyte | split]]]]].
  - intros Hh. rewrite Hh, Z.eqb_refl, bitSet_small by lia.
    apply Z.setbit_eq; lia.
  - intros Hl. rewrite Hl. change (LOW =? HIGH) with false. cbv iota.
    rewrite Z.eqb_refl, bitClear_small by lia. apply Z.clearbit_eq; lia.
  - intros Hh Hl. apply Z.eqb_neq in Hh, Hl. rewrite Hh, Hl. reflexivity.
  - intros j Hj.
    destruct (value =? HIGH); [| destruct (value =? LOW)].
    + rewrite bitSet_small by lia. apply Z.setbit_neq; lia.
    + rewrite bitClear_small by lia. apply Z.clearbit_neq; lia.
    + reflexivity.
  - unfold trace at 1. rewrite osrDigitalWrite_run. cbv zeta. cbn [snd].
    apply osrWriteRegister_trace.
  - intros c Hclk. split.
    + unfold final at 1. rewrite osrDigitalWrite_run. cbv zeta. cbn [fst snd].
      exact (proj1 (osrWriteRegister_595 _ c Hbyte Hclk)).
    + apply osrDigitalWrite_result.
Qed.

Lemma osrDigitalWrite_frame_witness :
  let c := HC595.Build_hc595 77 5 true false true in
  (0 <= 6 <= 7 /\ 0 <= HIGH < 256 /\ 0 <= 2 < 256 /\ HC595.srclk c = false) /\
  Z.testbit (result HC595.board (osrDigitalWrite 6 HIGH 2) c) 6 = true /\
  HC595.outputs (final HC595.board (osrDigitalWrite 6 HIGH 2) c)
    = result HC595.board (osrDigitalWrite 6 HIGH 2) c.
Proof.
  intros c.
  split; [split; [lia | split; [unfold HIGH; lia | split; [lia | reflexivity]]] |].
  destruct (osrDigitalWrite_frame 6 HIGH 2 HC595.board c)
    as (H1 & _ & _ & _ & _ & _ & H7); [lia | unfold HIGH; lia | lia |].
  split; [apply H1; reflexivity |].
  exact (proj1 (H7 c eq_refl)).
Defined.

(** ** [isrReadRegister] *)

Lemma result_digitalWrite {W} (h : handler gpioE W) pin val w :
  result h (digitalWrite pin val) w = tt.
Proof. destruct (result h (digitalWrite pin val) w); reflexivity. Qed.

Lemma result_digitalRead {W} (h : handler gpioE W) pin w :
  result h (digitalRead pin) w
  = if fst (h bool (DigitalRead pin) w) then HIGH else LOW.
Proof.
  unfold result, digitalRead, gpio, trigger. cbn.
  destruct (h bool (DigitalRead pin) w) as [b w1]. reflexivity.
Qed.

Lemma final_digitalRead {W} (h : handler gpioE W) pin w :
  final h (digitalRead pin) w = snd (h bool (DigitalRead pin) w).
Proof.
  unfold final, digitalRead, gpio, trigger. cbn.
  destruct (h bool (DigitalRead pin) w) as [b w1]. reflexivity.
Qed.

Lemma trace_digitalRead {W} (h : handler gpioE W) pin w :
  trace h (digitalRead pin) w = [samples pin (fst (h bool (DigitalRead pin) w))].
Proof.
  unfold trace, digitalRead, gpio, trigger. cbn.
  destruct (h bool (DigitalRead pin) w) as [b w1]. reflexivity.
Qed.

(** The byte after or-ing a sampled level in at bit [k]. *)
Lemma sampled_bit value (b : bool) k j :
  0 <= k -> 0 <= j ->
  Z.testbit (uint8 (Z.lor value (Z.shiftl (if b then HIGH else LOW) k))) j
  = (j <? 8) && (Z.testbit value j || (b && (j =? k))).
Proof.
  intros Hk Hj. unfold uint8. rewrite Z.testbit_mod_pow2 by lia. f_equal.
  rewrite Z.lor_spec. f_equal. destruct b; cbn [andb HIGH LOW].
  - rewrite Z.shiftl_1_l, Z.pow2_bits_eqb by lia. apply Z.eqb_sym.
  - rewrite Z.shiftl_0_l. apply Z.bits_0.
Qed.

(** What [shiftIn]'s loop does and returns, on any board: [bits] are the
    levels it sampled, in order. *)
Lemma shiftIn_loop_MSBFIRST {W} (h : handler gpioE W) dataPin clockPin n :
  forall i value w, 0 <= i -> i + Z.of_nat n <= 8 ->
  exists bits : list bool,
    length bits = n /\
    trace h (shiftIn_loop n dataPin clockPin MSBFIRST value i) w =
      flat_map (fun b => [drives clockPin true; samples dataPin b;
                          drives clockPin false]) bits /\
    forall j, 0 <= j < 8 ->
      Z.testbit (result h (shiftIn_loop n dataPin clockPin MSBFIRST value i) w) j
      = Z.testbit value j
        || ((i <=? 7 - j) && (7 - j <? i + Z.of_nat n)
            && nth (Z.to_nat (7 - j - i)) bits false).
Proof.
  induction n as [| n IH]; intros i value w Hi Hn.
  - exists []. repeat split. intros j Hj. cbn [shiftIn_loop].
    unfold result; cbn [run fst].
    destruct (Z.leb_spec i (7 - j)); destruct (Z.ltb_spec (7 - j) (i + Z.of_nat 0));
      cbn [andb]; rewrite ?orb_false_r; try reflexivity; lia.
  - cbn [shiftIn_loop]. change (MSBFIRST =? LSBFIRST) with false. cbv iota.
    repeat (progress rewrite ?trace_bind, ?result_bind, ?final_bind).
    rewrite ?trace_digitalWrite, ?trace_digitalRead, ?result_digitalRead,
      ?final_digitalRead.
    set (w1 := final h (digitalWrite clockPin HIGH) w).
    set (b := fst (h bool (DigitalRead dataPin) w1)).
    set (w2 := snd (h bool (DigitalRead dataPin) w1)).
    set (value1 := uint8 (Z.lor value (Z.shiftl (if b then HIGH else LOW) (7 - i)))).
    set (w3 := final h (digitalWrite clockPin LOW) w2).
    destruct (IH (i + 1) value1 w3 ltac:(lia) ltac:(lia)) as (bits & Hlen & Htr & Hres).
    exists (b :: bits).
    split; [cbn; lia |]. split.
    + rewrite Htr. reflexivity.
    + intros j Hj. rewrite Hres by exact Hj. subst value1.
      rewrite sampled_bit by lia.
      destruct (Z.ltb_spec j 8); [cbn [andb] | lia].
      destruct (Z.eqb_spec j (7 - i)) as [-> | Hne].
      * replace (7 - (7 - i) - i) with 0 by lia. cbn [Z.to_nat nth].
        destruct (Z.leb_spec (i + 1) (7 - (7 - i))); [lia |].
        destruct (Z.leb_spec i (7 - (7 - i))); [| lia].
        destruct (Z.ltb_spec (7 - (7 - i)) (i + Z.of_nat (S n))); [| lia].
        cbn [andb]. rewrite andb_true_r, orb_false_r. reflexivity.
      * rewrite andb_false_r, orb_false_r. f_equal.
        destruct (Z.leb_spec (i + 1) (7 - j)); destruct (Z.leb_spec i (7 - j));
          try lia; cbn [andb]; try reflexivity.
        replace (7 - j <? i + 1 + Z.of_nat n) with (7 - j <? i + Z.of_nat (S n))
          by (f_equal; lia).
        destruct (7 - j <? i + Z.of_nat (S n)); [| reflexivity].
        replace (Z.to_nat (7 - j - i)) with (S (Z.to_nat (7 - j - (i + 1)))) by lia.
        reflexivity.
Qed.

Lemma shiftIn_loop_byte {W} (h : handler gpioE W) dataPin clockPin bitOrder n :
  forall i value w, 0 <= value < 256 ->
  0 <= result h (shiftIn_loop n dataPin clockPin bitOrder value i) w < 256.
Proof.
  induction n as [| n IH]; intros i value w Hv; [exact Hv |].
  cbn [shiftIn_loop].
  repeat (progress rewrite ?result_bind, ?final_bind).
  apply IH. destruct (bitOrder =? LSBFIRST); apply Z.mod_pos_bound; reflexivity.
Qed.

(** ** The 74HC165 under [isrReadRegister], and the loop-back *)

Lemma shifted_out_bit r m :
  0 <= m -> Z.testbit (uint8 (Z.shiftl r 1)) m = (m <? 8) && Z.testbit r (m - 1).
Proof.
  intros Hm. unfold uint8. rewrite Z.testbit_mod_pow2 by lia.
  rewrite Z.shiftl_spec by lia. reflexivity.
Qed.

Lemma drive_165_inputs pin level c :
  HC165.inputs (HC165.drive pin level c) = HC165.inputs c.
Proof.
  unfold HC165.drive.
  destruct (pin =? ISRLatchPin); [reflexivity |].
  destruct (pin =? ISRClockPin); reflexivity.
Qed.

Lemma shiftIn_loop_165 n :
  forall i value c, 0 <= i -> i + Z.of_nat n <= 8 -> HC165.shld c = true ->
  let r0 := if HC165.clk c then HC165.shiftReg c
            else uint8 (Z.shiftl (HC165.shiftReg c) 1) in
  let p := shiftIn_loop n ISRDataPin ISRClockPin MSBFIRST value i in
  (forall j, 0 <= j < 8 ->
     Z.testbit (result HC165.board p c) j
     = Z.testbit value j
       || ((i <=? 7 - j) && (7 - j <? i + Z.of_nat n) && Z.testbit r0 (j + i))) /\
  HC165.shld (final HC165.board p c) = true /\
  HC165.inputs (final HC165.board p c) = HC165.inputs c.
Proof.
  induction n as [| n IH]; intros i value c Hi Hn Hld r0 p; subst p.
  - unfold result, final. cbn [shiftIn_loop run fst snd].
    repeat split; try assumption. intros j Hj.
    destruct (Z.leb_spec i (7 - j));
      destruct (Z.ltb_spec (7 - j) (i + Z.of_nat 0));
      cbn [andb]; rewrite ?orb_false_r; try reflexivity; lia.
  - cbn [shiftIn_loop]. change (MSBFIRST =? LSBFIRST) with false. cbv iota.
    repeat (progress rewrite ?result_bind, ?final_bind).
    rewrite ?result_digitalRead, ?final_digitalRead, ?final_digitalWrite.
    cbn [HC165.board fst snd].
    remember (HC165.drive ISRClockPin (negb (HIGH =? LOW)) c) as c1 eqn:E1.
    assert (H1 : HC165.shiftReg c1 = r0 /\ HC165.shld c1 = true
                 /\ HC165.inputs c1 = HC165.inputs c).
    { rewrite E1. subst r0. unfold HC165.drive. cbn. rewrite Hld.
      destruct (HC165.clk c); cbn; auto. }
    clear E1. destruct H1 as (Hr1 & Hld1 & Hin1).
    assert (Hb : HC165.sample ISRDataPin c1 = Z.testbit r0 7).
    { unfold HC165.sample, HC165.contents. cbn. rewrite Hld1, Hr1. reflexivity. }
    rewrite Hb.
    remember (HC165.drive ISRClockPin (negb (LOW =? LOW)) c1) as c3 eqn:E3.
    assert (H3 : HC165.shiftReg c3 = r0 /\ HC165.shld c3 = true
                 /\ HC165.clk c3 = false /\ HC165.inputs c3 = HC165.inputs c).
    { rewrite E3. unfold HC165.drive. cbn.
      destruct (HC165.clk c1); cbn; auto. }
    clear E3. destruct H3 as (Hr3 & Hld3 & Hclk3 & Hin3).
    destruct (IH (i + 1)
                 (uint8 (Z.lor value
                           (Z.shiftl (if Z.testbit r0 7 then HIGH else LOW) (7 - i))))
                 c3 ltac:(lia) ltac:(lia) Hld3) as (Hbits & Hld' & Hin').
    rewrite Hclk3, Hr3 in Hbits.
    split; [| split; [exact Hld' | rewrite Hin'; exact Hin3]].
    intros j Hj. rewrite Hbits by exact Hj.
    rewrite sampled_bit, shifted_out_bit by lia.
    destruct (Z.ltb_spec j 8); [cbn [andb] | lia].
    replace (j + (i + 1) - 1) with (j + i) by lia.
    destruct (Z.eqb_spec j (7 - i)) as [-> | Hne].
    + replace (7 - i + i) with 7 by lia.
      destruct (Z.leb_spec (i + 1) (7 - (7 - i))); [lia |].
      destruct (Z.leb_spec i (7 - (7 - i))); [| lia].
      destruct (Z.ltb_spec (7 - (7 - i)) (i + Z.of_nat (S n))); [| lia].
      cbn [andb]. rewrite andb_true_r, orb_false_r. reflexivity.
    + rewrite andb_false_r, orb_false_r. f_equal.
      destruct (Z.leb_spec (i + 1) (7 - j)); destruct (Z.leb_spec i (7 - j));
        try lia; cbn [andb]; try reflexivity.
      replace (7 - j <? i + 1 + Z.of_nat n) with (7 - j <? i + Z.of_nat (S n))
        by (f_equal; lia).
      destruct (7 - j <? i + Z.of_nat (S n)); [| reflexivity]. cbn [andb].
      destruct (Z.ltb_spec (j + (i + 1)) 8); [reflexivity | lia].
Qed.

(** Read while the '165 is latching its inputs: the byte on the inputs comes
    back whatever the clock level was, and the chip is latching again. *)
Lemma isrReadRegister_165 c :
  HC165.shld c = false -> 0 <= HC165.inputs c < 256 ->
  result HC165.board isrReadRegister c = HC165.inputs c /\
  HC165.shld (final HC165.board isrReadRegister c) = false /\
  HC165.inputs (final HC165.board isrReadRegister c) = HC165.inputs c.
Proof.
  intros Hld Hin. unfold isrReadRegister, shiftIn.
  repeat (progress rewrite ?result_bind, ?final_bind).
  rewrite ?final_digitalWrite. cbn [HC165.board snd].
  remember (HC165.drive ISRLatchPin (negb (HIGH =? LOW))
              (HC165.drive ISRClockPin (negb (HIGH =? LOW)) c)) as c2 eqn:E2.
  assert (H2 : HC165.shiftReg c2 = HC165.inputs c /\ HC165.shld c2 = true
               /\ HC165.clk c2 = true /\ HC165.inputs c2 = HC165.inputs c).
  { rewrite E2. unfold HC165.drive, HC165.contents. cbn. rewrite Hld. auto. }
  clear E2. destruct H2 as (Hr2 & Hld2 & Hclk2 & Hin2).
  destruct (shiftIn_loop_165 8 0 0 c2 ltac:(lia) ltac:(reflexivity) Hld2)
    as (Hbits & Hld' & Hin').
  rewrite Hclk2, Hr2 in Hbits.
  split; [| split].
  - unfold result at 1. cbn [run fst].
    apply byte_eq_bits; [apply shiftIn_loop_byte; lia | exact Hin |].
    intros j Hj. rewrite Hbits by exact Hj. rewrite Z.bits_0. cbn [orb].
    destruct (Z.leb_spec 0 (7 - j)); [| lia].
    destruct (Z.ltb_spec (7 - j) (0 + Z.of_nat 8)); [| lia].
    cbn [andb]. f_equal. lia.
  - reflexivity.
  - unfold final at 1. cbn [run fst snd].
    rewrite drive_165_inputs, Hin'. exact Hin2.
Qed.

Lemma isrReadRegister_165_latching c :
  HC165.shld (final HC165.board isrReadRegister c) = false.
Proof.
  unfold isrReadRegister, shiftIn.
  repeat (progress rewrite ?final_bind).
  rewrite ?final_digitalWrite. reflexivity.
Qed.

(** C8: [isrReadRegister] first drives the clock high, then raises the latch
    line, then shifts in eight bits, each sampled between a clock-high and a
    clock-low and stored from bit 7 down to bit 0, and lowers the latch line
    last, which leaves the '165 latching its inputs again. *)
Theorem isrReadRegister_sequence {W} (h : handler gpioE W) (w : W) :
  (exists bits : list bool,
     length bits = 8%nat /\
     trace h isrReadRegister w =
       drives ISRClockPin true ::
       drives ISRLatchPin true ::
       flat_map (fun b => [drives ISRClockPin true; samples ISRDataPin b;
                           drives ISRClockPin false]) bits
       ++ [drives ISRLatchPin false] /\
     (forall k, (k < 8)%nat ->
        Z.testbit (result h isrReadRegister w) (7 - Z.of_nat k)
        = nth k bits false) /\
     0 <= result h isrReadRegister w < 256) /\
  (forall c : HC165.hc165,
     HC165.shld (final HC165.board isrReadRegister c) = false).
Proof.
  split; [| exact isrReadRegister_165_latching].
  unfold isrReadRegister, shiftIn.
  repeat (progress rewrite ?trace_bind, ?result_bind, ?final_bind).
  rewrite !trace_digitalWrite.
  set (w2 := final h (digitalWrite ISRLatchPin HIGH) _).
  destruct (shiftIn_loop_MSBFIRST h ISRDataPin ISRClockPin 8 0 0 w2
              ltac:(lia) ltac:(reflexivity)) as (bits & Hlen & Htr & Hres).
  exists bits. split; [exact Hlen |]. split; [| split].
  - rewrite Htr. reflexivity.
  - intros k Hk. unfold result at 1. cbn [run fst].
    rewrite Hres by lia. rewrite Z.bits_0. cbn [orb].
    destruct (Z.leb_spec 0 (7 - (7 - Z.of_nat k))); [| lia].
    destruct (Z.ltb_spec (7 - (7 - Z.of_nat k)) (0 + Z.of_nat 8)); [| lia].
    cbn [andb]. f_equal. lia.
  - unfold result at 1 3. cbn [run fst]. apply shiftIn_loop_byte. lia.
Qed.

Lemma result_Ret {E W X} (h : handler E W) (x : X) w : result h (Ret x) w = x.
Proof. reflexivity. Qed.

Lemma loopback_read v tx rx :
  0 <= v < 256 -> HC595.srclk tx = false -> HC165.shld rx = false ->
  Loopback.writeThenRead v isrReadRegister tx rx = v.
Proof.
  intros Hv Hclk Hld. unfold Loopback.writeThenRead.
  destruct (osrWriteRegister_595 v tx Hv Hclk) as (Hout & _).
  remember (final HC595.board (osrWriteRegister v) tx) as tx' eqn:Etx.
  clear Etx.
  assert (Hin : 0 <= HC165.inputs (Loopback.wire tx' rx) < 256).
  { unfold Loopback.wire, HC165.inputs. rewrite Hout. exact Hv. }
  destruct (isrReadRegister_165 (Loopback.wire tx' rx) Hld Hin) as (Hres & _).
  rewrite Hres. exact Hout.
Qed.

Lemma writeThenRead_eq {X} b (reader : prog gpioE X) tx rx :
  Loopback.writeThenRead b reader tx rx
  = result HC165.board reader
      (Loopback.wire (final HC595.board (osrWriteRegister b) tx) rx).
Proof. reflexivity. Qed.

Lemma loopback_pin v pin tx rx :
  0 <= v < 256 -> HC595.srclk tx = false -> HC165.shld rx = false ->
  Loopback.writeThenRead v (isrDigitalRead pin) tx rx = bitRead v pin.
Proof.
  intros Hv Hclk Hld. rewrite writeThenRead_eq. unfold isrDigitalRead.
  rewrite result_bind, result_Ret, <- writeThenRead_eq.
  rewrite loopback_read by assumption. reflexivity.
Qed.

(** C6: a byte written with [osrWriteRegister] and read back with
    [isrReadRegister] over the loop-back is the same byte, and each pin reads
    as its bit; for [0b00000010] pin 1 reads HIGH and every other pin LOW.
    The other way round, a byte read from the '165 and written to the '595
    shows on the outputs bit for bit.  Both transactions leave the lines as
    they found them: clock of the '595 low, latch of the '165 low. *)
Theorem loopback_round_trip (b : Z) (tx : HC595.hc595) (rx : HC165.hc165) :
  0 <= b < 256 -> HC595.srclk tx = false -> HC165.shld rx = false ->
  Loopback.writeThenRead b isrReadRegister tx rx = b /\
  (forall pin, 0 <= pin <= 7 ->
     Loopback.writeThenRead b (isrDigitalRead pin) tx rx = bitRead b pin) /\
  (forall pin, 0 <= pin <= 7 ->
     Loopback.writeThenRead 2 (isrDigitalRead pin) tx rx
     = if pin =? 1 then HIGH else LOW) /\
  (0 <= HC165.inputs rx < 256 ->
   HC595.outputs
     (final HC595.board
        (osrWriteRegister (result HC165.board isrReadRegister rx)) tx)
   = HC165.inputs rx) /\
  HC595.srclk (final HC595.board (osrWriteRegister b) tx) = false /\
  HC165.shld (final HC165.board isrReadRegister rx) = false.
Proof.
  intros Hb Hclk Hld.
  split; [exact (loopback_read b tx rx Hb Hclk Hld) |].
  split; [intros pin _; exact (loopback_pin b pin tx rx Hb Hclk Hld) |].
  split; [| split; [| split]].
  - intros pin Hp.
    rewrite (loopback_pin 2 pin tx rx) by (assumption || lia).
    assert (Hcases : pin = 0 \/ pin = 1 \/ pin = 2 \/ pin = 3 \/ pin = 4
                     \/ pin = 5 \/ pin = 6 \/ pin = 7) by lia.
    repeat (destruct Hcases as [-> | Hcases]; [reflexivity |]).
    subst pin. reflexivity.
  - intros Hin. destruct (isrReadRegister_165 rx Hld Hin) as (Hres & _).
    rewrite Hres.
    exact (proj1 (osrWriteRegister_595 (HC165.inputs rx) tx Hin Hclk)).
  - exact (proj1 (proj2 (proj2 (osrWriteRegister_595 b tx Hb Hclk)))).
  - apply isrReadRegister_165_latching.
Qed.

Lemma loopback_round_trip_witness :
  let tx := HC595.Build_hc595 77 5 true false true in
  let rx := HC165.Build_hc165 9 200 false true in
  0 <= 171 < 256 /\ HC595.srclk tx = false /\ HC165.shld rx = false /\
  Loopback.writeThenRead 171 isrReadRegister tx rx = 171.
Proof.
  intros tx rx. split; [lia |]. split; [reflexivity |]. split; [reflexivity |].
  refine (proj1 (loopback_round_trip 171 tx rx _ _ _)).
  - lia.
  - reflexivity.
  - reflexivity.
Defined.

(** ** PortExpander: which pin, which value *)

Lemma findPin_spec flagB pin :
  0 <= pin <= 8 ->
  pin <= findPin flagB pin <= 8 /\
  (forall j, pin <= j < findPin flagB pin -> bitRead flagB j = 0) /\
  (findPin flagB pin < 8 -> bitRead flagB (findPin flagB pin) <> 0).
Proof.
  funelim (findPin flagB pin); intros Hpin.
  - (* pin = 8: the loop condition fails *)
    split; [lia | split; intros; lia].
  - (* bit clear: next pin *)
    match goal with IH : _ -> _ /\ _ |- _ => destruct IH as (Hr & Hz & Hs); [lia |] end.
    apply Z.eqb_eq in Heq.
    split; [lia | split; [| exact Hs]].
    intros j Hj. destruct (Z.eq_dec j pin) as [-> | Hne]; [exact Heq |].
    apply Hz. lia.
  - (* bit set: break *)
    apply Z.eqb_neq in Heq.
    split; [lia | split; [intros j Hj; lia | intros _; exact Heq]].
Qed.

Lemma bitRead_zero value bit :
  0 <= bit -> (bitRead value bit = 0 <-> Z.testbit value bit = false).
Proof.
  intros Hb. rewrite bitRead_testbit by exact Hb.
  destruct (Z.testbit value bit); cbn; split; congruence.
Qed.

(** A byte with some bit set: the loop breaks before pin 8. *)
Lemma findPin_found flagB :
  0 <= flagB < 256 -> flagB <> 0 -> 0 <= findPin flagB 0 <= 7.
Proof.
  intros Hb Hnz.
  destruct (findPin_spec flagB 0 ltac:(lia)) as (Hr & Hz & _).
  destruct (Z.eq_dec (findPin flagB 0) 8) as [H8 | H8]; [| lia].
  exfalso. apply Hnz. apply byte_eq_bits; [exact Hb | lia |].
  intros j Hj. rewrite Z.bits_0. apply bitRead_zero; [lia |]. apply Hz. lia.
Qed.

Section Handlers.
Context {D : Type} `{MCP23017 D}.

Lemma readAndWritePinOnInputChange_run (w : mcu D) :
  switchDidChange w = true ->
  let flagB := snd (flagsOf w) in
  let capB := snd (capturesOf w) in
  let pin := findPin flagB 0 in
  let value := bitRead capB pin in
  run world readAndWritePinOnInputChange w =
  (tt,
   {| switchDidChange := false;
      mcp23017 := mcp_digitalWrite pin value (chipAfterCapture w) |},
   [Event LoadSwitchDidChange true;
    Event (Delay 100) tt;
    Event InterruptedBy (flagsOf w);
    Event ClearInterruptsCapture (capturesOf w);
    Event (McpDigitalWrite pin value) tt;
    Event (StoreSwitchDidChange false) tt]).
Proof.
  intros Hflag. unfold flagsOf, capturesOf, chipAfterCapture.
  unfold readAndWritePinOnInputChange, call, trigger. cbn.
  rewrite Hflag. cbn.
  destruct (mcp_interruptedBy (mcp23017 w)) as [[flagA flagB] d1]. cbn.
  destruct (mcp_clearInterruptsCapture d1) as [[capA capB] d2]. cbn.
  reflexivity.
Qed.

Lemma readAndWritePortOnInputChange_run (w : mcu D) :
  switchDidChange w = true ->
  let v := fst (mcp_readPort MCP23017Port.B (mcp23017 w)) in
  let d1 := snd (mcp_readPort MCP23017Port.B (mcp23017 w)) in
  run world readAndWritePortOnInputChange w =
  (tt,
   {| switchDidChange := false;
      mcp23017 := mcp_clearInterrupts (mcp_writePort MCP23017Port.A v d1) |},
   [Event LoadSwitchDidChange true;
    Event (Delay 100) tt;
    Event (ReadPort MCP23017Port.B) v;
    Event (WritePort MCP23017Port.A v) tt;
    Event ClearInterrupts tt;
    Event (StoreSwitchDidChange false) tt]).
Proof.
  intros Hflag.
  unfold readAndWritePortOnInputChange, portCopy, call, trigger. cbn.
  rewrite Hflag. cbn.
  destruct (mcp_readPort MCP23017Port.B (mcp23017 w)) as [v d1]. cbn.
  reflexivity.
Qed.

(** C1: with some bit set in the flag byte, the pin written is the lowest
    set bit of the flag byte and the value written is that bit of the
    capture byte. *)
Theorem pin_resolution (w : mcu D) :
  switchDidChange w = true -> snd (flagsOf w) <> 0 ->
  let flagB := snd (flagsOf w) in
  let capB := snd (capturesOf w) in
  exists pin,
    0 <= pin <= 7 /\
    Z.testbit flagB pin = true /\
    (forall j, 0 <= j < pin -> Z.testbit flagB j = false) /\
    trace world readAndWritePinOnInputChange w =
      [Event LoadSwitchDidChange true;
       Event (Delay 100) tt;
       Event InterruptedBy (flagsOf w);
       Event ClearInterruptsCapture (capturesOf w);
       Event (McpDigitalWrite pin (Z.b2z (Z.testbit capB pin))) tt;
       Event (StoreSwitchDidChange false) tt] /\
    (* flag 0b00000101; flag 0b00010000 with capture 0b00010000 *)
    (findPin 5 0 = 0 /\
     (findPin 16 0, bitRead 16 (findPin 16 0)) = (4, 1)).
Proof.
  intros Hflag Hnz flagB capB.
  assert (Hbyte : 0 <= flagB < 256).
  { apply (mcp_interruptedBy_byte (mcp23017 w)). }
  pose proof (findPin_found flagB Hbyte Hnz) as Hpin.
  destruct (findPin_spec flagB 0 ltac:(lia)) as (_ & Hz & Hs).
  exists (findPin flagB 0). split; [exact Hpin |]. split; [| split; [| split]].
  - specialize (Hs ltac:(lia)). rewrite bitRead_zero in Hs by lia.
    destruct (Z.testbit flagB (findPin flagB 0)); congruence.
  - intros j Hj. apply bitRead_zero; [lia |]. apply Hz. lia.
  - unfold trace. rewrite readAndWritePinOnInputChange_run by exact Hflag.
    cbn [snd]. fold flagB capB. rewrite bitRead_testbit by lia. reflexivity.
  - split; reflexivity.
Qed.

(** C2, what the code does: with no bit set in the flag byte the loop runs
    to [pin = 8] and the handler writes LOW to pin 8, which is [Switch0]. *)
Theorem no_flag_bit_writes_Switch0 (w : mcu D) :
  switchDidChange w = true -> snd (flagsOf w) = 0 ->
  trace world readAndWritePinOnInputChange w =
    [Event LoadSwitchDidChange true;
     Event (Delay 100) tt;
     Event InterruptedBy (flagsOf w);
     Event ClearInterruptsCapture (capturesOf w);
     Event (McpDigitalWrite Switch0 LOW) tt;
     Event (StoreSwitchDidChange false) tt].
Proof.
  intros Hflag Hz.
  unfold trace. rewrite readAndWritePinOnInputChange_run by exact Hflag.
  cbn [snd]. rewrite Hz.
  change (findPin 0 0) with 8. change Switch0 with 8.
  assert (Hcap : 0 <= snd (capturesOf w) < 256).
  { apply (mcp_clearInterruptsCapture_byte
             (snd (mcp_interruptedBy (mcp23017 w)))). }
  rewrite bitRead_testbit, byte_testbit_high by lia. reflexivity.
Qed.

(** C10: with the flag clear, either handler only tests the flag: no call
    on the chip, and the world is as it was. *)
Theorem handlers_idle (w : mcu D) :
  switchDidChange w = false ->
  run world readAndWritePinOnInputChange w
    = (tt, w, [Event LoadSwitchDidChange false]) /\
  run world readAndWritePortOnInputChange w
    = (tt, w, [Event LoadSwitchDidChange false]).
Proof.
  intros Hflag.
  unfold readAndWritePinOnInputChange, readAndWritePortOnInputChange,
    call, trigger.
  cbn. rewrite Hflag. split; reflexivity.
Qed.

End Handlers.

Lemma pin_resolution_witness :
  let w := {| switchDidChange := true; mcp23017 := Bench.idle 16 16 |} in
  switchDidChange w = true /\ snd (flagsOf w) <> 0 /\
  exists pin,
    0 <= pin <= 7 /\ Z.testbit (snd (flagsOf w)) pin = true /\
    trace world readAndWritePinOnInputChange w
    = [Event LoadSwitchDidChange true;
       Event (Delay 100) tt;
       Event InterruptedBy (flagsOf w);
       Event ClearInterruptsCapture (capturesOf w);
       Event (McpDigitalWrite pin (Z.b2z (Z.testbit (snd (capturesOf w)) pin))) tt;
       Event (StoreSwitchDidChange false) tt].
Proof.
  intros w. split; [reflexivity |]. split; [discriminate |].
  destruct (pin_resolution w) as (pin & Hp & Hb & _ & Ht & _).
  - reflexivity.
  - discriminate.
  - exists pin. split; [exact Hp |]. split; [exact Hb | exact Ht].
Defined.

Lemma no_flag_bit_writes_Switch0_witness :
  let w := {| switchDidChange := true; mcp23017 := Bench.idle 0 255 |} in
  switchDidChange w = true /\ snd (flagsOf w) = 0 /\
  trace world readAndWritePinOnInputChange w
  = [Event LoadSwitchDidChange true;
     Event (Delay 100) tt;
     Event InterruptedBy (flagsOf w);
     Event ClearInterruptsCapture (capturesOf w);
     Event (McpDigitalWrite Switch0 LOW) tt;
     Event (StoreSwitchDidChange false) tt].
Proof.
  intros w. split; [reflexivity |]. split; [reflexivity |].
  apply (no_flag_bit_writes_Switch0 w); reflexivity.
Defined.

Lemma handlers_idle_witness :
  run world readAndWritePinOnInputChange
    {| switchDidChange := false; mcp23017 := Bench.idle 16 16 |}
  = (tt, {| switchDidChange := false; mcp23017 := Bench.idle 16 16 |},
     [Event LoadSwitchDidChange false]).
Proof.
  apply (handlers_idle {| switchDidChange := false; mcp23017 := Bench.idle 16 16 |}).
  reflexivity.
Defined.

(** ** The flag between the interrupt routine and the main loop *)

Lemma all_ops_bind {E X Y} (P : forall T, E T -> Prop)
      (m : prog E X) (f : X -> prog E Y) :
  all_ops P m -> (forall x, all_ops P (f x)) -> all_ops P (bind m f).
Proof.
  intros Hm Hf. induction Hm as [a | T e k He Hk IH]; cbn.
  - apply Hf.
  - apply all_Vis; [exact He | exact IH].
Qed.

Ltac each_op :=
  repeat (cbn;
          first [ apply all_Ret
                | apply all_Vis; [try reflexivity; try (split; reflexivity) | intros ?x]
                | match goal with
                  | |- context [let (_, _) := ?x in _] => destruct x
                  | |- context [if ?b then _ else _] => destruct b
                  end ]).

Lemma body_never_sets (a : approach) :
  all_ops (fun X e => storesFlag true e = false) (body a).
Proof. destruct a; unfold body; each_op. Qed.

Lemma isr_only_sets :
  all_ops (fun X e => storesFlag true e = true) mcp23017ChangeDetectedOnPortB.
Proof. each_op. Qed.

Lemma body_leaves_flag (a : approach) :
  handlesInterrupt a = false ->
  all_ops (fun X e => loadsFlag e = false /\ storesFlag false e = false) (body a).
Proof. destruct a; intros Ha; try discriminate Ha; unfold body; each_op. Qed.

Lemma iterations_leave_flag (l : list approach) :
  forallb (fun a => negb (handlesInterrupt a)) l = true ->
  all_ops (fun X e => loadsFlag e = false /\ storesFlag false e = false)
          (iterations l).
Proof.
  induction l as [| a l IH]; intros Hl; cbn [iterations]; [apply all_Ret |].
  cbn [forallb] in Hl. apply andb_prop in Hl as [Ha Hl].
  apply all_ops_bind.
  - apply body_leaves_flag. destruct (handlesInterrupt a); [discriminate | reflexivity].
  - intros _. apply IH, Hl.
Qed.

Section Flag.
Context {D : Type} `{MCP23017 D}.

Lemma world_keeps_flag X (e : op X) (w : mcu D) :
  storesFlag false e = false -> switchDidChange w = true ->
  switchDidChange (snd (world X e w)) = true.
Proof.
  intros He Hw. destruct e; cbn in *; try exact Hw.
  - destruct b; [reflexivity | discriminate He].
  - destruct (mcp_interruptedBy (mcp23017 w)) as [fl d]. exact Hw.
  - destruct (mcp_clearInterruptsCapture (mcp23017 w)) as [cp d]. exact Hw.
  - destruct (mcp_digitalRead pin (mcp23017 w)) as [v d]. exact Hw.
  - destruct (mcp_readPort port (mcp23017 w)) as [v d]. exact Hw.
Qed.

Lemma interrupt_world (c : config (E := op) (W := mcu D)) :
  interrupt world mcp23017ChangeDetectedOnPortB c =
  ({| switchDidChange := true; mcp23017 := mcp23017 (fst c) |},
   snd c ++ [(InISR, Event (StoreSwitchDidChange true) tt)]).
Proof. reflexivity. Qed.

Lemma interrupts_flag n : forall c : config (E := op) (W := mcu D),
  switchDidChange (fst c) = true ->
  switchDidChange (fst (interrupts world mcp23017ChangeDetectedOnPortB n c)) = true.
Proof.
  induction n as [| n IH]; intros c Hc; [exact Hc |].
  cbn [interrupts]. apply IH. reflexivity.
Qed.

(** A program that never stores [false] cannot take a set flag down,
    wherever the interrupts fall. *)
Lemma exec_keeps_flag (sched : list nat) :
  forall (p : prog op unit) (c : config (E := op) (W := mcu D)),
    all_ops (fun X e => storesFlag false e = false) p ->
    switchDidChange (fst c) = true ->
    switchDidChange (fst (snd (exec world mcp23017ChangeDetectedOnPortB sched p c))) = true.
Proof.
  induction sched as [| n sched IH]; intros p c Hp Hc; [exact Hc |].
  cbn [exec]. pose proof (interrupts_flag n c Hc) as Hc1.
  destruct (interrupts world mcp23017ChangeDetectedOnPortB n c) as [w1 t1]. cbn [fst] in Hc1.
  destruct Hp as [a | X e k He Hk]; cbn [step fst snd].
  - apply IH; [apply all_Ret | exact Hc1].
  - pose proof (world_keeps_flag X e w1 He Hc1) as Hc2.
    destruct (world X e w1) as [x w2]. apply IH; [apply Hk | exact Hc2].
Qed.

(** C3: the main loop never stores [true] and the interrupt routine only
    does that; the bodies that do not handle the interrupt neither load nor
    clear the flag; so over any number of such iterations and however the
    interrupts fall, a set flag stays set. *)
Theorem flag_stays_set :
  (forall a, all_ops (fun X e => storesFlag true e = false) (body a)) /\
  all_ops (fun X e => storesFlag true e = true) mcp23017ChangeDetectedOnPortB /\
  (forall a, handlesInterrupt a = false ->
     all_ops (fun X e => loadsFlag e = false /\ storesFlag false e = false)
             (body a)) /\
  (forall (l : list approach) (sched : list nat) (w : mcu D) t,
     forallb (fun a => negb (handlesInterrupt a)) l = true ->
     switchDidChange w = true ->
     switchDidChange (fst (snd (exec world mcp23017ChangeDetectedOnPortB sched (iterations l) (w, t))))
     = true).
Proof.
  split; [exact body_never_sets |].
  split; [exact isr_only_sets |].
  split; [exact body_leaves_flag |].
  intros l sched w t Hl Hw. apply exec_keeps_flag; [| exact Hw].
  pose proof (iterations_leave_flag l Hl) as Hall.
  induction Hall as [a | X e k [_ He] Hk IH]; constructor; auto.
Qed.

End Flag.

Lemma flag_stays_set_witness :
  let w := {| switchDidChange := true; mcp23017 := Bench.idle 16 16 |} in
  let l := [PortCopy; DigitalReadAndDigitalWrite; PortCopy] in
  forallb (fun a => negb (handlesInterrupt a)) l = true /\
  switchDidChange w = true /\
  switchDidChange
    (fst (snd (exec world mcp23017ChangeDetectedOnPortB [1; 0; 2; 0; 0]%nat
                    (iterations l) (w, [])))) = true.
Proof.
  intros w l. split; [reflexivity |]. split; [reflexivity |].
  apply (proj2 (proj2 (proj2 flag_stays_set))); reflexivity.
Defined.

(** ** The handler under interrupts *)

Section Handling.
Context {D : Type} `{MCP23017 D}.

Lemma inLoop_app (t1 t2 : list (context * event op)) :
  inLoop (t1 ++ t2) = inLoop t1 ++ inLoop t2.
Proof. unfold inLoop. apply flat_map_app. Qed.

Lemma interrupts_chip n : forall c : config (E := op) (W := mcu D),
  mcp23017 (fst (interrupts world mcp23017ChangeDetectedOnPortB n c))
    = mcp23017 (fst c) /\
  inLoop (snd (interrupts world mcp23017ChangeDetectedOnPortB n c))
    = inLoop (snd c).
Proof.
  induction n as [| n IH]; intros c; [split; reflexivity |].
  cbn [interrupts]. destruct (IH (interrupt world mcp23017ChangeDetectedOnPortB c))
    as [Hchip Htr].
  rewrite Hchip, Htr, interrupt_world. cbn [fst snd].
  rewrite inLoop_app. cbn. rewrite app_nil_r. split; reflexivity.
Qed.

(** Apart from loading the flag, an operation's answer and what it does
    to the chip depend on the chip alone. *)
Lemma world_blind X (e : op X) (w w' : mcu D) :
  loadsFlag e = false -> mcp23017 w = mcp23017 w' ->
  fst (world X e w) = fst (world X e w') /\
  mcp23017 (snd (world X e w)) = mcp23017 (snd (world X e w')).
Proof.
  intros He Hw. destruct e; cbn in *; try discriminate He;
    rewrite ?Hw; try (split; reflexivity).
  - destruct (mcp_interruptedBy (mcp23017 w')) as [fl d]. split; reflexivity.
  - destruct (mcp_clearInterruptsCapture (mcp23017 w')) as [cp d]. split; reflexivity.
  - destruct (mcp_digitalRead pin (mcp23017 w')) as [v d]. split; reflexivity.
  - destruct (mcp_readPort port (mcp23017 w')) as [v d]. split; reflexivity.
Qed.

(** A program that does not load the flag does, under interrupts, the
    operations of its uninterrupted run, with the same answers. *)
Lemma exec_follows_run (sched : list nat) :
  forall (p : prog op unit) (c : config (E := op) (W := mcu D)) (wu : mcu D),
    all_ops (fun X e => loadsFlag e = false) p ->
    opsLeft p (length sched) ->
    mcp23017 (fst c) = mcp23017 wu ->
    let r := exec world mcp23017ChangeDetectedOnPortB sched p c in
    fst r = Ret tt /\
    inLoop (snd (snd r)) = inLoop (snd c) ++ trace world p wu /\
    mcp23017 (fst (snd r)) = mcp23017 (final world p wu).
Proof.
  induction sched as [| n sched IH]; intros p c wu Hp Hn Hc r; subst r.
  - destruct Hp as [[] | X e k He Hk]; cbn in Hn; [| contradiction].
    cbn. rewrite app_nil_r. repeat split. exact Hc.
  - destruct Hp as [a | X e k He Hk]; cbn in Hn; [contradiction |].
    cbn [exec].
    destruct (interrupts_chip n c) as [Hchip Htr].
    destruct (interrupts world mcp23017ChangeDetectedOnPortB n c) as [w1 t1].
    cbn [fst snd] in *. cbn [step fst snd].
    destruct (world_blind X e w1 wu He (eq_trans Hchip Hc)) as [Hans Hch].
    unfold trace, final. cbn [run].
    destruct (world X e w1) as [x w2]. destruct (world X e wu) as [xu wu2].
    cbn [fst snd] in Hans, Hch. subst xu.
    specialize (IH (k x) (w2, t1 ++ [(InLoop, Event e x)]) wu2 (Hk x) (Hn x) Hch).
    cbv zeta in IH. destruct IH as (Hret & Htrace & Hfinal).
    unfold trace, final in Htrace, Hfinal.
    destruct (run world (k x) wu2) as [[a wu3] t3]. cbn [fst snd] in *.
    split; [exact Hret |]. split; [| exact Hfinal].
    rewrite Htrace, inLoop_app, Htr. cbn. rewrite <- app_assoc. reflexivity.
Qed.

Lemma exec_ends_storing b (sched : list nat) :
  forall (p : prog op unit) (c : config (E := op) (W := mcu D)),
    opsLeft p (length sched) -> endsStoring b p ->
    switchDidChange
      (fst (snd (exec world mcp23017ChangeDetectedOnPortB sched p c))) = b.
Proof.
  induction sched as [| n sched IH]; intros p c Hn He.
  - destruct p; cbn in Hn, He; contradiction.
  - destruct p as [a | X e k]; cbn in Hn; [contradiction |].
    cbn [exec step].
    destruct (interrupts world mcp23017ChangeDetectedOnPortB n c) as [w1 t1].
    cbn [fst snd]. destruct (world X e w1) as [x w2] eqn:Hw.
    cbn in He. destruct He as [[Hst Hk] | Hlater].
    + specialize (Hn x). rewrite Hk in *. destruct sched; [| contradiction].
      cbn. destruct e; try discriminate Hst. cbn in Hst, Hw.
      injection Hw as _ <-. cbn. symmetry. apply eqb_prop, Hst.
    + apply IH; [apply Hn | apply Hlater].
Qed.

(** A handler: test the flag, and if it is set do [body], which takes five
    operations, never loads the flag and ends by clearing it. *)
Lemma exec_handler (body : prog op unit) (sched : list nat) (w : mcu D) :
  all_ops (fun X e => loadsFlag e = false) body ->
  opsLeft body 5 -> endsStoring false body ->
  switchDidChange w = true -> length sched = 6%nat ->
  let handler :=
    Vis LoadSwitchDidChange (fun changed : bool => if changed then body else Ret tt) in
  let r := exec world mcp23017ChangeDetectedOnPortB sched handler (w, []) in
  fst r = Ret tt /\
  inLoop (snd (snd r)) = trace world handler w /\
  mcp23017 (fst (snd r)) = mcp23017 (final world handler w) /\
  switchDidChange (fst (snd r)) = false.
Proof.
  intros Hblind Hfive Hends Hw Hlen handler r; subst handler r.
  destruct sched as [| n0 sched]; [discriminate Hlen |].
  injection Hlen as Hlen. cbn [exec].
  pose proof (interrupts_flag n0 (w, []) Hw) as Hflag.
  destruct (interrupts_chip n0 (w, [])) as [Hchip Htr].
  destruct (interrupts world mcp23017ChangeDetectedOnPortB n0 (w, [])) as [w1 t1].
  cbn [fst snd] in *. cbn [step world fst snd]. rewrite Hflag.
  rewrite <- Hlen in Hfive.
  destruct (exec_follows_run sched body
              (w1, t1 ++ [(InLoop, Event LoadSwitchDidChange true)]) w
              Hblind Hfive Hchip) as (Hret & Htrace & Hfinal).
  cbn [fst snd] in Htrace.
  split; [exact Hret |]. split; [| split].
  - rewrite Htrace, inLoop_app, Htr. unfold trace. cbn [run world].
    rewrite Hw. destruct (run world body w) as [[a w'] t']. reflexivity.
  - rewrite Hfinal. unfold final. cbn [run world].
    rewrite Hw. destruct (run world body w) as [[a w'] t']. reflexivity.
  - apply exec_ends_storing; assumption.
Qed.

(** C4, as the code has it: the handler waits, reads its snapshot, clears
    the chip's interrupt and stores [false] into the flag last; however
    interrupts fall among its six operations, it performs them in that
    order with the same answers, and the flag is clear when it ends. *)
Theorem handling_order (w : mcu D) (sched : list nat) :
  switchDidChange w = true -> length sched = 6%nat ->
  let pinRun :=
    exec world mcp23017ChangeDetectedOnPortB sched
         readAndWritePinOnInputChange (w, []) in
  let portRun :=
    exec world mcp23017ChangeDetectedOnPortB sched
         readAndWritePortOnInputChange (w, []) in
  let pin := findPin (snd (flagsOf w)) 0 in
  let portB := fst (mcp_readPort MCP23017Port.B (mcp23017 w)) in
  trace world readAndWritePinOnInputChange w =
    [Event LoadSwitchDidChange true;
     Event (Delay 100) tt;
     Event InterruptedBy (flagsOf w);
     Event ClearInterruptsCapture (capturesOf w);
     Event (McpDigitalWrite pin (bitRead (snd (capturesOf w)) pin)) tt;
     Event (StoreSwitchDidChange false) tt] /\
  trace world readAndWritePortOnInputChange w =
    [Event LoadSwitchDidChange true;
     Event (Delay 100) tt;
     Event (ReadPort MCP23017Port.B) portB;
     Event (WritePort MCP23017Port.A portB) tt;
     Event ClearInterrupts tt;
     Event (StoreSwitchDidChange false) tt] /\
  (fst pinRun = Ret tt /\
   inLoop (snd (snd pinRun)) = trace world readAndWritePinOnInputChange w /\
   mcp23017 (fst (snd pinRun))
     = mcp23017 (final world readAndWritePinOnInputChange w) /\
   switchDidChange (fst (snd pinRun)) = false) /\
  (fst portRun = Ret tt /\
   inLoop (snd (snd portRun)) = trace world readAndWritePortOnInputChange w /\
   mcp23017 (fst (snd portRun))
     = mcp23017 (final world readAndWritePortOnInputChange w) /\
   switchDidChange (fst (snd portRun)) = false).
Proof.
  intros Hw Hlen pinRun portRun pin portB.
  split; [| split; [| split]].
  - unfold trace. rewrite readAndWritePinOnInputChange_run by exact Hw.
    reflexivity.
  - unfold trace. rewrite readAndWritePortOnInputChange_run by exact Hw.
    reflexivity.
  - subst pinRun.
    refine (exec_handler _ sched w _ _ _ Hw Hlen).
    + each_op.
    + cbn. intros u0 [flagA flagB] [capA capB] u1 u2. exact I.
    + cbn. right. intros _. right. intros [flagA flagB].
      right. intros [capA capB]. right. intros _. left.
      split; [reflexivity | intros []; reflexivity].
  - subst portRun.
    refine (exec_handler _ sched w _ _ _ Hw Hlen).
    + each_op.
    + cbn. intros u0 v u1 u2 u3. exact I.
    + cbn. right. intros _. right. intros v. right. intros _. right.
      intros _. left. split; [reflexivity | intros []; reflexivity].
Qed.

End Handling.

Lemma handling_order_witness :
  let w := {| switchDidChange := true; mcp23017 := Bench.idle 16 16 |} in
  let r := exec world mcp23017ChangeDetectedOnPortB [0; 0; 0; 0; 1; 0]%nat
                readAndWritePinOnInputChange (w, []) in
  switchDidChange w = true /\
  inLoop (snd (snd r)) = trace world readAndWritePinOnInputChange w /\
  switchDidChange (fst (snd r)) = false.
Proof.
  intros w r.
  destruct (handling_order w [0; 0; 0; 0; 1; 0]%nat)
    as (_ & _ & (_ & Ht & _ & Hf) & _); [reflexivity | reflexivity |].
  split; [reflexivity |]. split; [exact Ht | exact Hf].
Defined.

(** C4 as claimed fails: an interrupt that arrives in mid-handling (here
    after the chip's interrupt was cleared, before the LED is written) is
    wiped out by the handler's last store; the flag is not left pending. *)
Lemma interrupt_in_mid_handling_is_lost :
  let w := {| switchDidChange := true; mcp23017 := Bench.idle 16 16 |} in
  let r := exec world mcp23017ChangeDetectedOnPortB [0; 0; 0; 0; 1; 0]%nat
                readAndWritePinOnInputChange (w, []) in
  fst r = Ret tt /\
  snd (snd r) =
    [(InLoop, Event LoadSwitchDidChange true);
     (InLoop, Event (Delay 100) tt);
     (InLoop, Event InterruptedBy (0, 16));
     (InLoop, Event ClearInterruptsCapture (0, 16));
     (InISR, Event (StoreSwitchDidChange true) tt);
     (InLoop, Event (McpDigitalWrite 4 1) tt);
     (InLoop, Event (StoreSwitchDidChange false) tt)] /\
  switchDidChange (fst (snd r)) <> true.
Proof.
  intros w r. split; [reflexivity |]. split; [reflexivity |].
  cbn. discriminate.
Qed.

(** * More of the sketches *)

(** ** The '595 after a write *)

Lemma drive_595_ser_clock level c :
  HC595.ser (HC595.drive OSRClockPin level c) = HC595.ser c.
Proof. reflexivity. Qed.

Lemma drive_595_ser_latch level c :
  HC595.ser (HC595.drive OSRLatchPin level c) = HC595.ser c.
Proof. reflexivity. Qed.

Lemma shiftOut_loop_595_ser val n :
  forall i c, 0 <= i -> i + Z.of_nat n = 8 -> (0 < n)%nat ->
  HC595.ser (final HC595.board
               (shiftOut_loop n OSRDataPin OSRClockPin MSBFIRST val i) c)
  = Z.testbit val 0.
Proof.
  induction n as [| n IH]; intros i c Hi Hn Hpos; [lia |].
  cbn [shiftOut_loop]. change (MSBFIRST =? LSBFIRST) with false. cbv iota.
  rewrite !final_bind, !final_digitalWrite, mask_level by lia.
  cbn [HC595.board snd].
  destruct n as [| n'].
  - unfold final. cbn [shiftOut_loop run fst snd].
    rewrite !drive_595_ser_clock. replace (7 - i) with 0 by lia. reflexivity.
  - apply IH; lia.
Qed.

Lemma hc595_eq (c : HC595.hc595) sr out s sc rc :
  HC595.shiftReg c = sr -> HC595.outputs c = out -> HC595.ser c = s ->
  HC595.srclk c = sc -> HC595.rclk c = rc ->
  c = HC595.Build_hc595 sr out s sc rc.
Proof. destruct c; cbn; intros; subst; reflexivity. Qed.

Lemma osrWriteRegister_final v c :
  0 <= v < 256 -> HC595.srclk c = false ->
  final HC595.board (osrWriteRegister v) c
  = HC595.Build_hc595 v v (Z.testbit v 0) false true.
Proof.
  intros Hv Hc.
  destruct (osrWriteRegister_595 v c Hv Hc) as (Hout & Hsr & Hsc & Hrc).
  apply hc595_eq; try assumption.
  unfold osrWriteRegister, shiftOut.
  rewrite !final_bind, !final_digitalWrite. cbn [HC595.board snd].
  rewrite drive_595_ser_latch.
  apply shiftOut_loop_595_ser; lia.
Qed.

(** X1: after [osrWriteRegister b] the chip is in the one state [b] fixes,
    whatever it held or showed before; so a second write simply replaces the
    first. *)
Theorem osrWriteRegister_last_write_wins (a b : Z) (c : HC595.hc595) :
  0 <= a < 256 -> 0 <= b < 256 -> HC595.srclk c = false ->
  final HC595.board (osrWriteRegister b) c
    = HC595.Build_hc595 b b (Z.testbit b 0) false true /\
  final HC595.board (osrWriteRegister b)
        (final HC595.board (osrWriteRegister a) c)
    = final HC595.board (osrWriteRegister b) c.
Proof.
  intros Ha Hb Hclk.
  split; [apply osrWriteRegister_final; assumption |].
  rewrite (osrWriteRegister_final a c Ha Hclk), (osrWriteRegister_final b c Hb Hclk).
  apply osrWriteRegister_final; [exact Hb | reflexivity].
Qed.

Lemma osrWriteRegister_last_write_wins_witness :
  let c := HC595.Build_hc595 77 5 true false true in
  0 <= 64 < 256 /\ 0 <= 2 < 256 /\ HC595.srclk c = false /\
  final HC595.board (osrWriteRegister 2)
        (final HC595.board (osrWriteRegister 64) c)
    = final HC595.board (osrWriteRegister 2) c.
Proof.
  intros c. split; [lia |]. split; [lia |]. split; [reflexivity |].
  refine (proj2 (osrWriteRegister_last_write_wins 64 2 c _ _ _)).
  - lia.
  - lia.
  - reflexivity.
Defined.

(** ** [osrDigitalWrite], call after call *)

Lemma retained_testbit pin value b j :
  0 <= pin < 32 -> 0 <= b < 256 -> 0 <= j < 8 ->
  Z.testbit (if value =? HIGH then bitSet b pin
             else if value =? LOW then bitClear b pin else b) j
  = if (j =? pin) && (value =? HIGH) then true
    else if (j =? pin) && (value =? LOW) then false
    else Z.testbit b j.
Proof.
  intros Hp Hb Hj.
  assert (HL : (LOW =? HIGH) = false) by reflexivity.
  destruct (Z.eqb_spec value HIGH) as [-> | Hh].
  - rewrite bitSet_testbit by lia.
    destruct (Z.ltb_spec j 8); [cbn [andb] | lia].
    rewrite (Z.eqb_sym pin j). destruct (j =? pin); cbn.
    + apply orb_true_r.
    + apply orb_false_r.
  - destruct (Z.eqb_spec value LOW) as [-> | Hl].
    + rewrite bitClear_testbit by lia.
      destruct (Z.ltb_spec j 8); [cbn [andb] | lia].
      rewrite (Z.eqb_sym pin j). destruct (j =? pin); cbn.
      * apply andb_false_r.
      * apply andb_true_r.
    + rewrite !andb_false_r. reflexivity.
Qed.

Lemma retained_byte pin value b :
  0 <= b < 256 ->
  0 <= (if value =? HIGH then bitSet b pin
        else if value =? LOW then bitClear b pin else b) < 256.
Proof.
  intros Hb. destruct (value =? HIGH); [apply bitSet_byte |].
  destruct (value =? LOW); [apply bitClear_byte | exact Hb].
Qed.

(** X2: calls of [osrDigitalWrite] on different pins can be made in either
    order, and repeating a call changes nothing: the retained byte is the
    same. *)
Theorem osrDigitalWrite_commutes (p q v u b : Z)
        {W} (h : handler gpioE W) (w1 w2 w3 w4 : W) :
  0 <= p <= 7 -> 0 <= q <= 7 -> p <> q -> 0 <= b < 256 ->
  result h (osrDigitalWrite q u (result h (osrDigitalWrite p v b) w1)) w2
    = result h (osrDigitalWrite p v (result h (osrDigitalWrite q u b) w3)) w4 /\
  result h (osrDigitalWrite p v (result h (osrDigitalWrite p v b) w1)) w2
    = result h (osrDigitalWrite p v b) w1.
Proof.
  intros Hp Hq Hpq Hb. rewrite !osrDigitalWrite_result.
  split.
  - apply byte_eq_bits; try (apply retained_byte, retained_byte, Hb).
    intros j Hj.
    rewrite !retained_testbit by (try apply retained_byte; lia).
    destruct (Z.eqb_spec j p); destruct (Z.eqb_spec j q); try lia;
      cbn [andb]; try reflexivity;
      repeat match goal with
             | |- context [?x =? HIGH] => destruct (x =? HIGH)
             | |- context [?x =? LOW] => destruct (x =? LOW)
             end; reflexivity.
  - apply byte_eq_bits; try (repeat apply retained_byte; exact Hb).
    intros j Hj.
    rewrite !retained_testbit by (try apply retained_byte; lia).
    destruct (Z.eqb_spec j p); cbn [andb]; [| reflexivity].
    destruct (v =? HIGH); [reflexivity |]. destruct (v =? LOW); reflexivity.
Qed.

Lemma osrDigitalWrite_commutes_witness :
  let c := HC595.Build_hc595 77 5 true false true in
  (0 <= 1 <= 7 /\ 0 <= 6 <= 7 /\ 1 <> 6 /\ 0 <= 5 < 256) /\
  result HC595.board
    (osrDigitalWrite 6 LOW (result HC595.board (osrDigitalWrite 1 HIGH 5) c)) c
  = result HC595.board
      (osrDigitalWrite 1 HIGH (result HC595.board (osrDigitalWrite 6 LOW 5) c)) c.
Proof.
  intros c. split; [lia |].
  refine (proj1 (osrDigitalWrite_commutes 1 6 HIGH LOW 5 HC595.board c c c c
                   _ _ _ _)); lia.
Defined.

(** X3: after [osrDigitalWrite] the LEDs show the retained byte, whatever
    pin and value were passed; a pin from 8 to 31 changes nothing in the
    byte, silently. *)
Theorem leds_show_retained_byte (pin value b : Z) (c : HC595.hc595) :
  0 <= b < 256 -> HC595.srclk c = false ->
  HC595.outputs (final HC595.board (osrDigitalWrite pin value b) c)
    = result HC595.board (osrDigitalWrite pin value b) c /\
  HC595.srclk (final HC595.board (osrDigitalWrite pin value b) c) = false /\
  (8 <= pin <= 31 ->
   result HC595.board (osrDigitalWrite pin value b) c = b).
Proof.
  intros Hb Hclk.
  unfold final at 1 2. rewrite osrDigitalWrite_result, osrDigitalWrite_run.
  cbv zeta. cbn [fst snd].
  pose proof (retained_byte pin value b Hb) as Hr.
  destruct (osrWriteRegister_595 _ c Hr Hclk) as (Hout & _ & Hsc & _).
  split; [exact Hout |]. split; [exact Hsc |].
  intros Hpin. apply byte_eq_bits; [exact Hr | exact Hb |].
  intros j Hj. rewrite retained_testbit by lia.
  destruct (Z.eqb_spec j pin); [lia | reflexivity].
Qed.

Lemma leds_show_retained_byte_witness :
  let c := HC595.Build_hc595 77 5 true false true in
  0 <= 5 < 256 /\ HC595.srclk c = false /\
  HC595.outputs (final HC595.board (osrDigitalWrite 9 HIGH 5) c)
    = result HC595.board (osrDigitalWrite 9 HIGH 5) c /\
  result HC595.board (osrDigitalWrite 9 HIGH 5) c = 5.
Proof.
  intros c. split; [lia |]. split; [reflexivity |].
  destruct (leds_show_retained_byte 9 HIGH 5 c) as (H1 & _ & H3);
    [lia | reflexivity |].
  split; [exact H1 | apply H3; lia].
Defined.

(** ** What the LEDs show, pause by pause *)

Lemma run_lift_595 {A} (p : prog gpioE A) c fr :
  result OutputSketch.bench (lift p) (c, fr) = result HC595.board p c /\
  final OutputSketch.bench (lift p) (c, fr) = (final HC595.board p c, fr).
Proof.
  unfold result, final. revert c.
  induction p as [a | X e k IH]; intros c; [split; reflexivity |].
  cbn [lift run OutputSketch.bench fst snd].
  destruct (HC595.board X e c) as [x c1].
  specialize (IH x c1).
  destruct (run OutputSketch.bench (lift (k x)) (c1, fr)) as [[a w2] t2].
  destruct (run HC595.board (k x) c1) as [[a' c2] t2'].
  exact IH.
Qed.

(** The pauses already noted play no part in what follows. *)
Lemma bench_frames_prefix {A} (p : prog sketchE A) :
  forall c fr,
    result OutputSketch.bench p (c, fr) = result OutputSketch.bench p (c, []) /\
    final OutputSketch.bench p (c, fr)
    = (fst (final OutputSketch.bench p (c, [])),
       fr ++ snd (final OutputSketch.bench p (c, []))).
Proof.
  unfold result, final.
  induction p as [a | X e k IH]; intros c fr.
  - cbn. rewrite app_nil_r. split; reflexivity.
  - cbn [run].
    assert (Hstep : exists x c1 add,
               (forall fr', OutputSketch.bench X e (c, fr') = (x, (c1, fr' ++ add)))).
    { destruct e; cbn [OutputSketch.bench fst snd];
        try (eexists; exists c, []; intros fr'; rewrite app_nil_r; reflexivity).
      - destruct (HC595.board X e c) as [x c1].
        exists x, c1, []. intros fr'. rewrite app_nil_r. reflexivity.
      - eexists. exists c. eexists. intros fr'. reflexivity. }
    destruct Hstep as (x & c1 & add & Hstep).
    rewrite (Hstep fr), (Hstep []). cbn [app].
    destruct (IH x c1 (fr ++ add)) as [Hr Hf].
    destruct (IH x c1 add) as [Hr' Hf'].
    destruct (run OutputSketch.bench (k x) (c1, fr ++ add)) as [[a w2] t2].
    destruct (run OutputSketch.bench (k x) (c1, add)) as [[a' w2'] t2'].
    destruct (run OutputSketch.bench (k x) (c1, [])) as [[a0 w0] t0].
    cbn [fst snd] in *. subst a a' w2 w2'. cbn [fst snd].
    rewrite app_assoc. split; reflexivity.
Qed.

Lemma final_lift_595 {A} (p : prog gpioE A) c fr :
  final OutputSketch.bench (lift p) (c, fr) = (final HC595.board p c, fr).
Proof. apply run_lift_595. Qed.

Lemma result_lift_595 {A} (p : prog gpioE A) c fr :
  result OutputSketch.bench (lift p) (c, fr) = result HC595.board p c.
Proof. apply run_lift_595. Qed.

(** A pass that starts with a register write goes on from the state the
    written byte fixes. *)
Lemma final_from_write {A} (b : Z) (rest : prog sketchE A) c fr :
  0 <= b < 256 -> HC595.srclk c = false ->
  final OutputSketch.bench (bind (lift (osrWriteRegister b)) (fun _ => rest)) (c, fr)
  = final OutputSketch.bench rest
      (HC595.Build_hc595 b b (Z.testbit b 0) false true, fr).
Proof.
  intros Hb Hclk.
  rewrite final_bind, final_lift_595, osrWriteRegister_final by assumption.
  reflexivity.
Qed.

Lemma result_from_write {A} (b : Z) (rest : prog sketchE A) c fr :
  0 <= b < 256 -> HC595.srclk c = false ->
  result OutputSketch.bench (bind (lift (osrWriteRegister b)) (fun _ => rest)) (c, fr)
  = result OutputSketch.bench rest
      (HC595.Build_hc595 b b (Z.testbit b 0) false true, fr).
Proof.
  intros Hb Hclk.
  rewrite result_bind, final_lift_595, osrWriteRegister_final by assumption.
  reflexivity.
Qed.

Lemma final_osrDigitalWrite pin value b c :
  final HC595.board (osrDigitalWrite pin value b) c
  = final HC595.board
      (osrWriteRegister (result HC595.board (osrDigitalWrite pin value b) c)) c.
Proof.
  rewrite osrDigitalWrite_result. unfold final at 1.
  rewrite osrDigitalWrite_run. reflexivity.
Qed.

(** A pass that starts with [osrDigitalWrite] goes on with the retained
    byte, from the state that byte fixes. *)
Lemma final_from_digitalWrite {A} pin value b (f : Z -> prog sketchE A) c fr :
  0 <= b < 256 -> HC595.srclk c = false ->
  let r := if value =? HIGH then bitSet b pin
           else if value =? LOW then bitClear b pin else b in
  final OutputSketch.bench (bind (lift (osrDigitalWrite pin value b)) f) (c, fr)
  = final OutputSketch.bench (f r)
      (HC595.Build_hc595 r r (Z.testbit r 0) false true, fr) /\
  result OutputSketch.bench (bind (lift (osrDigitalWrite pin value b)) f) (c, fr)
  = result OutputSketch.bench (f r)
      (HC595.Build_hc595 r r (Z.testbit r 0) false true, fr).
Proof.
  intros Hb Hclk r. pose proof (retained_byte pin value b Hb) as Hr.
  rewrite final_bind, result_bind, final_lift_595, result_lift_595.
  rewrite final_osrDigitalWrite, osrDigitalWrite_result.
  rewrite osrWriteRegister_final by assumption.
  split; reflexivity.
Qed.

Lemma sameChip_eq c1 c2 : OutputSketch.sameChip c1 c2 = true -> c1 = c2.
Proof.
  unfold OutputSketch.sameChip. intros Hs.
  repeat (apply andb_prop in Hs as [Hs ?]).
  destruct c1, c2; cbn in *.
  repeat match goal with
         | Hq : (_ =? _) = true |- _ => apply Z.eqb_eq in Hq
         | Hq : Bool.eqb _ _ = true |- _ => apply eqb_prop in Hq
         end.
  subst. reflexivity.
Qed.

(** Every byte satisfies a decidable property that all of 0..255 satisfy. *)
Lemma byte_cases (P : Z -> bool) :
  forallb (fun n => P (Z.of_nat n)) (seq 0 256) = true ->
  forall b, 0 <= b < 256 -> P b = true.
Proof.
  intros Hall b Hb. rewrite forallb_forall in Hall.
  rewrite <- (Z2Nat.id b) by lia. apply Hall.
  apply in_seq. lia.
Qed.

(** X4: whatever byte [osrDigitalWrite] retained before,
    [changeOutputsWithDigitalWrite] hands back 0 and leaves all LEDs off:
    the retained byte of the sketch is 0 at the start of every pass. *)
Theorem changeOutputsWithDigitalWrite_resets (b : Z) (c : HC595.hc595) :
  0 <= b < 256 -> HC595.srclk c = false ->
  result OutputSketch.bench (OutputSketch.changeOutputsWithDigitalWrite b) (c, [])
    = 0 /\
  fst (final OutputSketch.bench
         (OutputSketch.changeOutputsWithDigitalWrite b) (c, []))
    = HC595.Build_hc595 0 0 false false true.
Proof.
  intros Hb Hclk. unfold OutputSketch.changeOutputsWithDigitalWrite. cbv zeta.
  destruct (final_from_digitalWrite 1 HIGH b
              (fun outputs =>
                 delay 1000 ;;
                 outputs <- lift (osrDigitalWrite 1 LOW outputs) ;;
                 outputs <- lift (osrDigitalWrite 6 HIGH outputs) ;;
                 delay 1000 ;;
                 outputs <- lift (osrDigitalWrite 6 LOW outputs) ;;
                 delay 1000 ;;
                 outputs <- lift (osrDigitalWrite 0 HIGH outputs) ;;
                 outputs <- lift (osrDigitalWrite 2 HIGH outputs) ;;
                 outputs <- lift (osrDigitalWrite 4 HIGH outputs) ;;
                 outputs <- lift (osrDigitalWrite 6 HIGH outputs) ;;
                 delay 1000 ;;
                 outputs <- lift (osrDigitalWrite 0 LOW outputs) ;;
                 outputs <- lift (osrDigitalWrite 2 LOW outputs) ;;
                 outputs <- lift (osrDigitalWrite 4 LOW outputs) ;;
                 outputs <- lift (osrDigitalWrite 6 LOW outputs) ;;
                 outputs <- lift (osrDigitalWrite 1 HIGH outputs) ;;
                 outputs <- lift (osrDigitalWrite 3 HIGH outputs) ;;
                 outputs <- lift (osrDigitalWrite 5 HIGH outputs) ;;
                 outputs <- lift (osrDigitalWrite 7 HIGH outputs) ;;
                 delay 1000 ;;
                 outputs <- lift (osrDigitalWrite 1 LOW outputs) ;;
                 outputs <- lift (osrDigitalWrite 3 LOW outputs) ;;
                 outputs <- lift (osrDigitalWrite 5 LOW outputs) ;;
                 outputs <- lift (osrDigitalWrite 7 LOW outputs) ;;
                 delay 1000 ;;
                 Ret outputs)
              c [] Hb Hclk) as [Hf Hr].
  rewrite Hf, Hr. clear Hf Hr Hclk c.
  change (HIGH =? HIGH) with true. cbv iota.
  match goal with
  | |- ?R = 0 /\ fst ?F = ?K =>
      let Rp := eval pattern b in R in
      let Fp := eval pattern b in F in
      match Rp with
      | ?fR _ =>
          match Fp with
          | ?fF _ =>
              pose proof
                (byte_cases
                   (fun x => (fR x =? 0)
                             && OutputSketch.sameChip (fst (fF x)) K)
                   ltac:(vm_compute; reflexivity) b Hb) as HP
          end
      end
  end.
  cbv beta in HP. apply andb_prop in HP as [HR HF].
  split; [apply Z.eqb_eq, HR | apply sameChip_eq, HF].
Qed.

Lemma changeOutputsWithDigitalWrite_resets_witness :
  let c := HC595.Build_hc595 77 5 true false true in
  0 <= 255 < 256 /\ HC595.srclk c = false /\
  result OutputSketch.bench (OutputSketch.changeOutputsWithDigitalWrite 255) (c, [])
    = 0.
Proof.
  intros c. split; [lia |]. split; [reflexivity |].
  refine (proj1 (changeOutputsWithDigitalWrite_resets 255 c _ _)).
  - lia.
  - reflexivity.
Defined.

Lemma four_approaches_show_the_same_parts (c : HC595.hc595) :
  HC595.srclk c = false ->
  let dark := HC595.Build_hc595 0 0 false false true in
  final OutputSketch.bench (OutputSketch.changeOutputsWithDigitalWrite 0) (c, [])
    = (dark, OutputSketch.pattern) /\
  final OutputSketch.bench OutputSketch.changeOutputsWithBinaryValues (c, [])
    = (dark, OutputSketch.pattern) /\
  final OutputSketch.bench OutputSketch.changeOutputsWithDefinedNames (c, [])
    = (dark, OutputSketch.pattern) /\
  final OutputSketch.bench OutputSketch.changeOutputsWithBitOperations (c, [])
    = (dark, OutputSketch.pattern).
Proof.
  intros Hclk dark. split; [| split; [| split]].
  - unfold OutputSketch.changeOutputsWithDigitalWrite. cbv zeta.
    match goal with
    | |- final _ (bind (lift (osrDigitalWrite ?p ?v ?b)) ?f) _ = _ =>
        rewrite (proj1 (final_from_digitalWrite p v b f c [] ltac:(lia) Hclk))
    end.
    vm_compute. reflexivity.
  - unfold OutputSketch.changeOutputsWithBinaryValues.
    rewrite final_from_write by (lia || exact Hclk).
    vm_compute. reflexivity.
  - unfold OutputSketch.changeOutputsWithDefinedNames. cbv zeta.
    rewrite final_from_write by (lia || exact Hclk).
    vm_compute. reflexivity.
  - unfold OutputSketch.changeOutputsWithBitOperations. cbv zeta.
    change (bitSet 0 1) with 2.
    rewrite final_from_write by (lia || exact Hclk).
    vm_compute. reflexivity.
Qed.

Lemma changeOutputsWithDigitalWrite_result0 (c : HC595.hc595) :
  HC595.srclk c = false ->
  result OutputSketch.bench (OutputSketch.changeOutputsWithDigitalWrite 0) (c, [])
  = 0.
Proof.
  intros Hclk. unfold OutputSketch.changeOutputsWithDigitalWrite. cbv zeta.
  match goal with
  | |- result _ (bind (lift (osrDigitalWrite ?p ?v ?b)) ?f) _ = _ =>
      rewrite (proj2 (final_from_digitalWrite p v b f c [] ltac:(lia) Hclk))
  end.
  vm_compute. reflexivity.
Qed.

(** X5: from any state of the '595 with its clock low, the four approaches
    show the same six patterns for a second each and leave all LEDs off:
    LED1, LED6, none, the even LEDs, the odd LEDs, none. *)
Theorem four_approaches_show_the_same (c : HC595.hc595) :
  HC595.srclk c = false ->
  let dark := HC595.Build_hc595 0 0 false false true in
  final OutputSketch.bench (OutputSketch.changeOutputsWithDigitalWrite 0) (c, [])
    = (dark, OutputSketch.pattern) /\
  final OutputSketch.bench OutputSketch.changeOutputsWithBinaryValues (c, [])
    = (dark, OutputSketch.pattern) /\
  final OutputSketch.bench OutputSketch.changeOutputsWithDefinedNames (c, [])
    = (dark, OutputSketch.pattern) /\
  final OutputSketch.bench OutputSketch.changeOutputsWithBitOperations (c, [])
    = (dark, OutputSketch.pattern).
Proof. exact (four_approaches_show_the_same_parts c). Qed.

Lemma four_approaches_show_the_same_witness :
  let c := HC595.Build_hc595 77 5 true false true in
  HC595.srclk c = false /\
  final OutputSketch.bench (OutputSketch.changeOutputsWithDigitalWrite 0) (c, [])
  = final OutputSketch.bench OutputSketch.changeOutputsWithBitOperations (c, []).
Proof.
  intros c. split; [reflexivity |].
  destruct (four_approaches_show_the_same c) as (H1 & _ & _ & H4);
    [reflexivity |].
  exact (eq_trans H1 (eq_sym H4)).
Defined.

Lemma final_prefix {A} (p : prog sketchE A) c fr :
  final OutputSketch.bench p (c, fr)
  = (fst (final OutputSketch.bench p (c, [])),
     fr ++ snd (final OutputSketch.bench p (c, []))).
Proof. apply bench_frames_prefix. Qed.

Lemma result_prefix {A} (p : prog sketchE A) c fr :
  result OutputSketch.bench p (c, fr) = result OutputSketch.bench p (c, []).
Proof. apply bench_frames_prefix. Qed.

Lemma loop_pass c fr :
  HC595.srclk c = false ->
  final OutputSketch.bench (OutputSketch.loop 0) (c, fr)
    = (HC595.Build_hc595 0 0 false false true,
       fr ++ OutputSketch.pattern ++ OutputSketch.pattern
          ++ OutputSketch.pattern ++ OutputSketch.pattern) /\
  result OutputSketch.bench (OutputSketch.loop 0) (c, fr) = 0.
Proof.
  intros Hclk.
  assert (Hdark : HC595.srclk (HC595.Build_hc595 0 0 false false true) = false)
    by reflexivity.
  destruct (four_approaches_show_the_same_parts c Hclk) as (H1 & _).
  destruct (four_approaches_show_the_same_parts _ Hdark) as (_ & H2 & H3 & H4).
  pose proof (changeOutputsWithDigitalWrite_result0 c Hclk) as Hr.
  unfold OutputSketch.loop.
  rewrite !final_bind, !result_bind.
  rewrite (result_prefix _ c fr), Hr.
  rewrite (final_prefix _ c fr), H1. cbn [fst snd].
  rewrite (final_prefix _ _ (fr ++ _)), H2. cbn [fst snd].
  rewrite (final_prefix _ _ ((fr ++ _) ++ _)), H3. cbn [fst snd].
  rewrite (final_prefix _ _ (((fr ++ _) ++ _) ++ _)), H4. cbn [fst snd].
  split; [| reflexivity].
  unfold final. cbn [run fst snd]. rewrite <- !app_assoc. reflexivity.
Qed.

Lemma loops_from_dark n : forall fr,
  final OutputSketch.bench (OutputSketch.loops n 0)
        (HC595.Build_hc595 0 0 false false true, fr)
    = (HC595.Build_hc595 0 0 false false true,
       fr ++ concat (repeat OutputSketch.pattern (4 * n))) /\
  result OutputSketch.bench (OutputSketch.loops n 0)
         (HC595.Build_hc595 0 0 false false true, fr) = 0.
Proof.
  induction n as [| n IH]; intros fr.
  - cbn. rewrite app_nil_r. split; reflexivity.
  - cbn [OutputSketch.loops].
    destruct (loop_pass (HC595.Build_hc595 0 0 false false true) fr eq_refl)
      as [Hf Hr].
    rewrite final_bind, result_bind, Hf, Hr.
    destruct (IH (fr ++ OutputSketch.pattern ++ OutputSketch.pattern
                     ++ OutputSketch.pattern ++ OutputSketch.pattern))
      as [Hf' Hr'].
    rewrite Hf', Hr'. split; [| reflexivity]. f_equal.
    replace (4 * S n)%nat with (4 + 4 * n)%nat by lia.
    cbn [Nat.add repeat concat]. rewrite <- !app_assoc. reflexivity.
Qed.

(** X6: from power-up, with the clock line low, the sketch shows all LEDs
    off for a second and then, pass after pass of [loop], the same six
    patterns four times over; the retained byte is 0 after every pass and the
    LEDs are off. *)
Theorem sketch_shows (n : nat) (c : HC595.hc595) :
  HC595.srclk c = false ->
  final OutputSketch.bench (OutputSketch.sketch n) (c, [])
    = (HC595.Build_hc595 0 0 false false true,
       (0, 1000) :: concat (repeat OutputSketch.pattern (4 * n))) /\
  result OutputSketch.bench (OutputSketch.sketch n) (c, []) = 0.
Proof.
  intros Hclk. unfold OutputSketch.sketch.
  assert (Hsetup : final OutputSketch.bench OutputSketch.setup (c, [])
                   = (HC595.Build_hc595 0 0 false false true, [(0, 1000)])).
  { unfold OutputSketch.setup. rewrite !final_bind.
    unfold pinMode, perform, trigger, final at 3 4 5.
    cbn [run OutputSketch.bench fst snd].
    rewrite final_lift_595, osrWriteRegister_final by (lia || exact Hclk).
    reflexivity. }
  rewrite final_bind, result_bind, Hsetup.
  destruct (loops_from_dark n [(0, 1000)]) as [Hf Hr].
  rewrite Hf, Hr. split; reflexivity.
Qed.

Lemma sketch_shows_witness :
  let c := HC595.Build_hc595 77 5 true false true in
  HC595.srclk c = false /\
  final OutputSketch.bench (OutputSketch.sketch 2) (c, [])
    = (HC595.Build_hc595 0 0 false false true,
       (0, 1000) :: concat (repeat OutputSketch.pattern 8)).
Proof.
  intros c. split; [reflexivity |].
  exact (proj1 (sketch_shows 2 c eq_refl)).
Defined.

(** X7: [cycleLEDs] lights exactly one LED at every pause, LED0 up to LED7
    and back down to LED1, a tenth of a second each; it ends with LED0 lit
    and no pause, so that the next call gives LED0 its tenth of a second. *)
Theorem cycleLEDs_sweeps (c : HC595.hc595) :
  HC595.srclk c = false ->
  final OutputSketch.bench OutputSketch.cycleLEDs (c, [])
    = (HC595.Build_hc595 1 1 true false true,
       map (fun k => (2 ^ k, 100)) [0; 1; 2; 3; 4; 5; 6; 7; 6; 5; 4; 3; 2; 1]) /\
  result OutputSketch.bench OutputSketch.cycleLEDs (c, []) = 0.
Proof.
  intros Hclk. unfold OutputSketch.cycleLEDs. cbv zeta.
  rewrite final_bind, result_bind.
  assert (Hup : final OutputSketch.bench (OutputSketch.cycleUp 8 0 0) (c, [])
                = (HC595.Build_hc595 128 128 false false true,
                   map (fun k => (2 ^ k, 100)) [0; 1; 2; 3; 4; 5; 6]) /\
                result OutputSketch.bench (OutputSketch.cycleUp 8 0 0) (c, []) = 0).
  { change (OutputSketch.cycleUp 8 0 0)
      with (bind (lift (osrWriteRegister 1))
                 (fun _ => bind (delay 100)
                             (fun _ => OutputSketch.cycleUp 7 1 0))).
    rewrite final_from_write, result_from_write by (lia || exact Hclk).
    split; vm_compute; reflexivity. }
  destruct Hup as [Hf Hr]. rewrite Hf, Hr.
  split; vm_compute; reflexivity.
Qed.

Lemma cycleLEDs_sweeps_witness :
  let c := HC595.Build_hc595 77 5 true false true in
  HC595.srclk c = false /\
  snd (final OutputSketch.bench OutputSketch.cycleLEDs (c, []))
    = map (fun k => (2 ^ k, 100)) [0; 1; 2; 3; 4; 5; 6; 7; 6; 5; 4; 3; 2; 1].
Proof.
  intros c. split; [reflexivity |].
  exact (f_equal snd (proj1 (cycleLEDs_sweeps c eq_refl))).
Defined.

(** ** The input sketch on the '165 *)

Lemma run_lift_165 {A} (p : prog gpioE A) c :
  run InputSketch.bench (lift p) c
  = (result HC165.board p c, final HC165.board p c,
     map InputSketch.onLine (trace HC165.board p c)).
Proof.
  unfold result, final, trace. revert c.
  induction p as [a | X e k IH]; intros c; [reflexivity |].
  cbn [lift run InputSketch.bench].
  destruct (HC165.board X e c) as [x c1]. rewrite IH.
  destruct (run HC165.board (k x) c1) as [[a c2] t2]. reflexivity.
Qed.

Lemma result_lift_165 {A} (p : prog gpioE A) c :
  result InputSketch.bench (lift p) c = result HC165.board p c.
Proof. unfold result at 1. rewrite run_lift_165. reflexivity. Qed.

Lemma final_lift_165 {A} (p : prog gpioE A) c :
  final InputSketch.bench (lift p) c = final HC165.board p c.
Proof. unfold final at 1. rewrite run_lift_165. reflexivity. Qed.

Lemma trace_lift_165 {A} (p : prog gpioE A) c :
  trace InputSketch.bench (lift p) c
  = map InputSketch.onLine (trace HC165.board p c).
Proof. unfold trace at 1. rewrite run_lift_165. reflexivity. Qed.

Lemma serial_onLine t : serial (map InputSketch.onLine t) = [].
Proof.
  induction t as [| [X e x] t IH]; [reflexivity |]. cbn. exact IH.
Qed.

Lemma samples_onLine t :
  filter isSample (map InputSketch.onLine t)
  = map InputSketch.onLine (filter isRead t).
Proof.
  induction t as [| [X e x] t IH]; [reflexivity |].
  destruct e; cbn; rewrite IH; reflexivity.
Qed.

Lemma isrReadRegister_reads {W} (h : handler gpioE W) w :
  List.length (filter isRead (trace h isrReadRegister w)) = 8%nat.
Proof.
  unfold isrReadRegister, shiftIn.
  repeat (progress rewrite ?trace_bind, ?result_bind, ?final_bind).
  rewrite !trace_digitalWrite.
  match goal with
  | |- context [trace h (shiftIn_loop 8 ?d ?c MSBFIRST 0 0) ?w2] =>
      destruct (shiftIn_loop_MSBFIRST h d c 8 0 0 w2 ltac:(lia) ltac:(reflexivity))
        as (bits & Hlen & Htr & _)
  end.
  rewrite Htr. unfold trace at 1. cbn [run snd].
  cbn [app filter isRead drives].
  rewrite filter_app. cbn [filter isRead drives app].
  rewrite app_nil_r, <- Hlen. clear.
  induction bits as [| b bits IH]; [reflexivity |].
  cbn. rewrite IH. reflexivity.
Qed.

Lemma isrDigitalRead_165 pin c x :
  0 <= x < 256 -> InputSketch.latching x c ->
  result HC165.board (isrDigitalRead pin) c = bitRead x pin /\
  InputSketch.latching x (final HC165.board (isrDigitalRead pin) c) /\
  List.length (filter isRead (trace HC165.board (isrDigitalRead pin) c)) = 8%nat.
Proof.
  intros Hx [Hld Hin]. subst x.
  destruct (isrReadRegister_165 c Hld Hx) as (Hres & Hld' & Hin').
  unfold isrDigitalRead.
  rewrite result_bind, final_bind, trace_bind, result_Ret, Hres.
  split; [reflexivity |]. split.
  - unfold final at 1. cbn [run fst snd]. split; assumption.
  - unfold trace at 2. cbn [run snd]. rewrite app_nil_r.
    apply isrReadRegister_reads.
Qed.

Lemma isrReadRegister_latching c x :
  0 <= x < 256 -> InputSketch.latching x c ->
  result HC165.board isrReadRegister c = x /\
  InputSketch.latching x (final HC165.board isrReadRegister c).
Proof.
  intros Hx [Hld Hin]. subst x.
  destruct (isrReadRegister_165 c Hld Hx) as (Hres & Hld' & Hin').
  split; [exact Hres | split; assumption].
Qed.

(** X8: on a '165 that is latching its inputs, [isrDigitalRead] of a pin
    within the width of [int] returns the level of that input, LOW for a
    pin from 8 to 15, and leaves the chip latching the same inputs: a
    second call returns the same. *)
Theorem isrDigitalRead_level (pin : Z) (c : HC165.hc165) :
  HC165.shld c = false -> 0 <= HC165.inputs c < 256 -> 0 <= pin <= 15 ->
  result HC165.board (isrDigitalRead pin) c
    = Z.b2z (Z.testbit (HC165.inputs c) pin) /\
  (8 <= pin -> result HC165.board (isrDigitalRead pin) c = LOW) /\
  HC165.shld (final HC165.board (isrDigitalRead pin) c) = false /\
  HC165.inputs (final HC165.board (isrDigitalRead pin) c) = HC165.inputs c /\
  result HC165.board (isrDigitalRead pin)
         (final HC165.board (isrDigitalRead pin) c)
    = result HC165.board (isrDigitalRead pin) c.
Proof.
  intros Hld Hin Hpin.
  destruct (isrDigitalRead_165 pin c (HC165.inputs c) Hin (conj Hld eq_refl))
    as (Hres & Hlat & _).
  destruct (isrDigitalRead_165 pin _ (HC165.inputs c) Hin Hlat) as (Hres' & _).
  rewrite Hres', Hres, bitRead_testbit by lia.
  split; [reflexivity |].
  split; [| split; [apply Hlat | split; [apply Hlat | reflexivity]]].
  intros H8. rewrite byte_testbit_high by lia. reflexivity.
Qed.

Lemma isrDigitalRead_level_witness :
  let c := HC165.Build_hc165 165 200 false true in
  HC165.shld c = false /\ 0 <= HC165.inputs c < 256 /\ 0 <= 7 <= 15 /\
  result HC165.board (isrDigitalRead 7) c = 1.
Proof.
  intros c. split; [reflexivity |]. split; [cbn; lia |]. split; [lia |].
  refine (proj1 (isrDigitalRead_level 7 c _ _ _)).
  - reflexivity.
  - cbn. lia.
  - lia.
Defined.

(** ** What the input sketch prints *)

Lemma serial_app t1 t2 : serial (t1 ++ t2) = serial t1 ++ serial t2.
Proof. apply filter_app. Qed.

Lemma samples_app t1 t2 :
  List.length (filter isSample (t1 ++ t2))
  = (List.length (filter isSample t1) + List.length (filter isSample t2))%nat.
Proof. rewrite filter_app. apply length_app. Qed.

Ltac serial_step :=
  intros Hk c Hc; unfold InputSketch.said in *;
  rewrite trace_bind, serial_app;
  match goal with
  | |- context [perform ?e] =>
      change (trace InputSketch.bench (perform e) c) with [Event e tt];
      change (final InputSketch.bench (perform e) c) with c;
      change (result InputSketch.bench (perform e) c) with tt
  end;
  cbn [serial filter isSerial app];
  rewrite (Hk c Hc); reflexivity.

Section Reading.
Variable x : Z.
Hypothesis Hx : 0 <= x < 256.

Lemma said_print {A} s (k : prog sketchE A) L :
  (forall c, InputSketch.latching x c -> InputSketch.said k c = L) ->
  forall c, InputSketch.latching x c ->
    InputSketch.said (bind (perform (SerialPrint s)) (fun _ => k)) c
    = Event (SerialPrint s) tt :: L.
Proof. serial_step. Qed.

Lemma said_println {A} s (k : prog sketchE A) L :
  (forall c, InputSketch.latching x c -> InputSketch.said k c = L) ->
  forall c, InputSketch.latching x c ->
    InputSketch.said (bind (perform (SerialPrintln s)) (fun _ => k)) c
    = Event (SerialPrintln s) tt :: L.
Proof. serial_step. Qed.

Lemma said_number {A} n base (k : prog sketchE A) L :
  (forall c, InputSketch.latching x c -> InputSketch.said k c = L) ->
  forall c, InputSketch.latching x c ->
    InputSketch.said (bind (perform (SerialPrintNumber n base)) (fun _ => k)) c
    = Event (SerialPrintNumber n base) tt :: L.
Proof. serial_step. Qed.

Lemma said_last (e : sketchE unit) c :
  isSerial (Event e tt) = true ->
  InputSketch.said (perform e) c = [Event e tt].
Proof.
  intros He. unfold InputSketch.said, perform, trigger, trace. cbn [run].
  destruct (InputSketch.bench unit e c) as [[] c']. cbn [snd serial filter].
  rewrite He. reflexivity.
Qed.

Lemma said_digitalRead {A} pin (k : Z -> prog sketchE A) L :
  (forall c, InputSketch.latching x c ->
     InputSketch.said (k (bitRead x pin)) c = L) ->
  forall c, InputSketch.latching x c ->
    InputSketch.said (bind (lift (isrDigitalRead pin)) k) c = L.
Proof.
  intros Hk c Hc. unfold InputSketch.said in *.
  destruct (isrDigitalRead_165 pin c x Hx Hc) as (Hres & Hlat & _).
  rewrite trace_bind, serial_app, trace_lift_165, serial_onLine.
  rewrite result_lift_165, final_lift_165, Hres. cbn [app].
  apply Hk, Hlat.
Qed.

Lemma said_readRegister {A} (k : Z -> prog sketchE A) L :
  (forall c, InputSketch.latching x c -> InputSketch.said (k x) c = L) ->
  forall c, InputSketch.latching x c ->
    InputSketch.said (bind (lift isrReadRegister) k) c = L.
Proof.
  intros Hk c Hc. unfold InputSketch.said in *.
  destruct (isrReadRegister_latching c x Hx Hc) as (Hres & Hlat).
  rewrite trace_bind, serial_app, trace_lift_165, serial_onLine.
  rewrite result_lift_165, final_lift_165, Hres. cbn [app].
  apply Hk, Hlat.
Qed.

End Reading.

Ltac sample_step :=
  intros Hk c Hc; unfold InputSketch.sampled in *;
  rewrite trace_bind, samples_app;
  match goal with
  | |- context [perform ?e] =>
      change (trace InputSketch.bench (perform e) c) with [Event e tt];
      change (final InputSketch.bench (perform e) c) with c;
      change (result InputSketch.bench (perform e) c) with tt
  end;
  cbn [filter isSample List.length Nat.add];
  rewrite (Hk c Hc); reflexivity.

Section Sampling.
Variable x : Z.
Hypothesis Hx : 0 <= x < 256.

Lemma sampled_print {A} s (k : prog sketchE A) n :
  (forall c, InputSketch.latching x c -> InputSketch.sampled k c = n) ->
  forall c, InputSketch.latching x c ->
    InputSketch.sampled (bind (perform (SerialPrint s)) (fun _ => k)) c = n.
Proof. sample_step. Qed.

Lemma sampled_println {A} s (k : prog sketchE A) n :
  (forall c, InputSketch.latching x c -> InputSketch.sampled k c = n) ->
  forall c, InputSketch.latching x c ->
    InputSketch.sampled (bind (perform (SerialPrintln s)) (fun _ => k)) c = n.
Proof. sample_step. Qed.

Lemma sampled_last (e : sketchE unit) c :
  isSample (Event e tt) = false ->
  InputSketch.sampled (perform e) c = 0%nat.
Proof.
  intros He. unfold InputSketch.sampled, perform, trigger, trace. cbn [run].
  destruct (InputSketch.bench unit e c) as [[] c']. cbn [snd filter].
  rewrite He. reflexivity.
Qed.

Lemma sampled_digitalRead {A} pin (k : Z -> prog sketchE A) n :
  (forall c, InputSketch.latching x c ->
     InputSketch.sampled (k (bitRead x pin)) c = n) ->
  forall c, InputSketch.latching x c ->
    InputSketch.sampled (bind (lift (isrDigitalRead pin)) k) c = (8 + n)%nat.
Proof.
  intros Hk c Hc. unfold InputSketch.sampled in *.
  destruct (isrDigitalRead_165 pin c x Hx Hc) as (Hres & Hlat & Hn).
  rewrite trace_bind, samples_app, trace_lift_165, samples_onLine, length_map.
  rewrite result_lift_165, final_lift_165, Hres, Hn.
  rewrite (Hk _ Hlat). reflexivity.
Qed.

Lemma sampled_readRegister {A} (k : Z -> prog sketchE A) n :
  (forall c, InputSketch.latching x c -> InputSketch.sampled (k x) c = n) ->
  forall c, InputSketch.latching x c ->
    InputSketch.sampled (bind (lift isrReadRegister) k) c = (8 + n)%nat.
Proof.
  intros Hk c Hc. unfold InputSketch.sampled in *.
  destruct (isrReadRegister_latching c x Hx Hc) as (Hres & Hlat).
  rewrite trace_bind, samples_app, trace_lift_165, samples_onLine, length_map.
  rewrite isrReadRegister_reads.
  rewrite result_lift_165, final_lift_165, Hres.
  rewrite (Hk _ Hlat). reflexivity.
Qed.

End Sampling.

Ltac said_walk x Hx :=
  repeat match goal with
  | |- forall c, _ -> InputSketch.said (bind (perform (SerialPrint _)) _) c = _ =>
      refine (said_print x _ _ _ _)
  | |- forall c, _ -> InputSketch.said (bind (perform (SerialPrintln _)) _) c = _ =>
      refine (said_println x _ _ _ _)
  | |- forall c, _ -> InputSketch.said (bind (perform (SerialPrintNumber _ _)) _) c = _ =>
      refine (said_number x _ _ _ _ _)
  | |- forall c, _ -> InputSketch.said (bind (lift (isrDigitalRead _)) _) c = _ =>
      refine (said_digitalRead x Hx _ _ _ _)
  | |- forall c, _ -> InputSketch.said (bind (lift isrReadRegister) _) c = _ =>
      refine (said_readRegister x Hx _ _ _)
  end.

Ltac sampled_walk x Hx :=
  repeat match goal with
  | |- forall c, _ -> InputSketch.sampled (bind (perform (SerialPrint _)) _) c = _ =>
      refine (sampled_print x _ _ _ _)
  | |- forall c, _ -> InputSketch.sampled (bind (perform (SerialPrintln _)) _) c = _ =>
      refine (sampled_println x _ _ _ _)
  | |- forall c, _ -> InputSketch.sampled (bind (lift (isrDigitalRead _)) _) c = _ =>
      refine (sampled_digitalRead x Hx _ _ _ _)
  | |- forall c, _ -> InputSketch.sampled (bind (lift isrReadRegister) _) c = _ =>
      refine (sampled_readRegister x Hx _ _ _)
  end.

Lemma readInputsWithDigitalRead_said x c :
  0 <= x < 256 -> InputSketch.latching x c ->
  InputSketch.said InputSketch.readInputsWithDigitalRead c
  = InputSketch.report x.
Proof.
  intros Hx. revert c. unfold InputSketch.readInputsWithDigitalRead.
  cbv [InputSketch.report InputSketch.inputNames flat_map app fst snd].
  said_walk x Hx.
  intros c _. apply said_last. reflexivity.
Qed.

Lemma readInputsWithDefinedNames_said x c :
  0 <= x < 256 -> InputSketch.latching x c ->
  InputSketch.said InputSketch.readInputsWithDefinedNamesAndBitOperations c
  = InputSketch.report x.
Proof.
  intros Hx. revert c.
  unfold InputSketch.readInputsWithDefinedNamesAndBitOperations.
  cbv [InputSketch.report InputSketch.inputNames flat_map app fst snd].
  said_walk x Hx.
  intros c _. apply said_last. reflexivity.
Qed.

Lemma readInputsWithDigitalRead_sampled x c :
  0 <= x < 256 -> InputSketch.latching x c ->
  InputSketch.sampled InputSketch.readInputsWithDigitalRead c = 64%nat.
Proof.
  intros Hx. revert c. unfold InputSketch.readInputsWithDigitalRead.
  change 64%nat with (8 + (8 + (8 + (8 + (8 + (8 + (8 + (8 + 0))))))))%nat.
  sampled_walk x Hx.
  intros c _. apply sampled_last. reflexivity.
Qed.

Lemma readInputsWithDefinedNames_sampled x c :
  0 <= x < 256 -> InputSketch.latching x c ->
  InputSketch.sampled InputSketch.readInputsWithDefinedNamesAndBitOperations c
  = 8%nat.
Proof.
  intros Hx. revert c.
  unfold InputSketch.readInputsWithDefinedNamesAndBitOperations.
  change 8%nat with (8 + 0)%nat.
  sampled_walk x Hx.
  intros c _. apply sampled_last. reflexivity.
Qed.

(** X9: on a '165 latching the byte [x], reading the inputs one by one with
    [isrDigitalRead] and reading the register once and picking its bits
    print the same report, eight named lines and an empty one; the first
    samples the data line 64 times, the second 8 times. *)
Theorem named_readers_agree (x : Z) (c : HC165.hc165) :
  0 <= x < 256 -> InputSketch.latching x c ->
  InputSketch.said InputSketch.readInputsWithDigitalRead c
    = InputSketch.report x /\
  InputSketch.said InputSketch.readInputsWithDefinedNamesAndBitOperations c
    = InputSketch.report x /\
  InputSketch.sampled InputSketch.readInputsWithDigitalRead c = 64%nat /\
  InputSketch.sampled InputSketch.readInputsWithDefinedNamesAndBitOperations c
    = 8%nat.
Proof.
  intros Hx Hc.
  split; [exact (readInputsWithDigitalRead_said x c Hx Hc) |].
  split; [exact (readInputsWithDefinedNames_said x c Hx Hc) |].
  split; [exact (readInputsWithDigitalRead_sampled x c Hx Hc) |].
  exact (readInputsWithDefinedNames_sampled x c Hx Hc).
Qed.

Lemma named_readers_agree_witness :
  let c := HC165.Build_hc165 165 0 false false in
  0 <= 165 < 256 /\ InputSketch.latching 165 c /\
  InputSketch.said InputSketch.readInputsWithDigitalRead c
    = InputSketch.report 165.
Proof.
  intros c. split; [lia |]. split; [split; reflexivity |].
  refine (proj1 (named_readers_agree 165 c _ _)).
  - lia.
  - split; reflexivity.
Defined.

(** X10: on a '165 latching the byte [x], [readInputsWithBinaryValues]
    prints the prefix and then that byte in base 2, whatever the register
    held before, and leaves the chip latching. *)
Theorem readInputsWithBinaryValues_prints (x : Z) (c : HC165.hc165) :
  0 <= x < 256 -> InputSketch.latching x c ->
  InputSketch.said InputSketch.readInputsWithBinaryValues c
    = [Event (SerialPrint "Inputs: 0b"%string) tt;
       Event (SerialPrintlnNumber x BIN) tt] /\
  InputSketch.latching x
    (final InputSketch.bench InputSketch.readInputsWithBinaryValues c).
Proof.
  intros Hx Hc. split.
  - revert c Hc. unfold InputSketch.readInputsWithBinaryValues.
    said_walk x Hx.
    intros c _. apply said_last. reflexivity.
  - unfold InputSketch.readInputsWithBinaryValues.
    rewrite final_bind.
    change (final InputSketch.bench (perform (SerialPrint "Inputs: 0b"%string)) c)
      with c.
    rewrite final_bind, final_lift_165.
    destruct (isrReadRegister_latching c x Hx Hc) as (Hres & Hlat).
    exact Hlat.
Qed.

Lemma readInputsWithBinaryValues_prints_witness :
  let c := HC165.Build_hc165 165 77 false true in
  0 <= 165 < 256 /\ InputSketch.latching 165 c /\
  InputSketch.said InputSketch.readInputsWithBinaryValues c
    = [Event (SerialPrint "Inputs: 0b"%string) tt;
       Event (SerialPrintlnNumber 165 BIN) tt].
Proof.
  intros c. split; [lia |]. split; [split; reflexivity |].
  refine (proj1 (readInputsWithBinaryValues_prints 165 c _ _)).
  - lia.
  - split; reflexivity.
Defined.

Lemma said_Ret {A} (a : A) c : InputSketch.said (Ret a) c = [].
Proof. reflexivity. Qed.

Lemma bind_perform_assoc {A B} (e : sketchE unit)
      (f : unit -> prog sketchE A) (g : A -> prog sketchE B) :
  bind (bind (perform e) f) g = bind (perform e) (fun u => bind (f u) g).
Proof. reflexivity. Qed.

Lemma readAndPrintInputsOnChange_result previous x c :
  0 <= x < 256 -> InputSketch.latching x c ->
  result InputSketch.bench (InputSketch.readAndPrintInputsOnChange previous) c = x
  /\ InputSketch.latching x
       (final InputSketch.bench (InputSketch.readAndPrintInputsOnChange previous) c).
Proof.
  intros Hx Hc. unfold InputSketch.readAndPrintInputsOnChange.
  rewrite result_bind, final_bind, result_lift_165, final_lift_165.
  destruct (isrReadRegister_latching c x Hx Hc) as (Hres & Hlat).
  rewrite Hres.
  remember (final HC165.board isrReadRegister c) as c1 eqn:E1. clear E1.
  destruct (x =? previous) eqn:E; cbn [negb].
  - apply Z.eqb_eq in E. subst previous. split; [reflexivity | exact Hlat].
  - split; [reflexivity | exact Hlat].
Qed.

Lemma readAndPrintInputsOnChange_said previous x c :
  0 <= x < 256 -> InputSketch.latching x c ->
  InputSketch.said (InputSketch.readAndPrintInputsOnChange previous) c
  = if x =? previous then []
    else Event (SerialPrint "Inputs: 0b"%string) tt
         :: InputSketch.digits x ++ [Event (SerialPrintln ""%string) tt].
Proof.
  intros Hx. revert c. unfold InputSketch.readAndPrintInputsOnChange.
  refine (said_readRegister x Hx _ _ _).
  destruct (x =? previous); cbn [negb].
  - intros c _. reflexivity.
  - cbv [InputSketch.digits map app].
    cbn [InputSketch.printBits Z.sub Z.add Z.opp Z.pos_sub Pos.pred_double].
    rewrite !bind_perform_assoc.
    said_walk x Hx.
    intros c _. reflexivity.
Qed.

(** X11: on a '165 latching the byte [x], [readAndPrintInputsOnChange]
    remembers [x] whatever it remembered before; it prints nothing when [x]
    is what it remembered, and otherwise the prefix, the eight bits of [x]
    from bit 7 down to bit 0, and a line end. Called again at once it
    prints nothing. *)
Theorem readAndPrintInputsOnChange_reports (previous x : Z) (c : HC165.hc165) :
  0 <= x < 256 -> InputSketch.latching x c ->
  let p := InputSketch.readAndPrintInputsOnChange previous in
  result InputSketch.bench p c = x /\
  (x = previous -> InputSketch.said p c = []) /\
  (x <> previous ->
   InputSketch.said p c
   = Event (SerialPrint "Inputs: 0b"%string) tt
     :: InputSketch.digits x ++ [Event (SerialPrintln ""%string) tt]) /\
  InputSketch.said
    (InputSketch.readAndPrintInputsOnChange (result InputSketch.bench p c))
    (final InputSketch.bench p c) = [].
Proof.
  intros Hx Hc p. subst p.
  destruct (readAndPrintInputsOnChange_result previous x c Hx Hc) as (Hres & Hlat).
  pose proof (readAndPrintInputsOnChange_said previous x c Hx Hc) as Hsaid.
  split; [exact Hres |]. split; [| split].
  - intros E. apply Z.eqb_eq in E. rewrite E in Hsaid. exact Hsaid.
  - intros E. apply Z.eqb_neq in E. rewrite E in Hsaid. exact Hsaid.
  - rewrite Hres.
    rewrite (readAndPrintInputsOnChange_said x x _ Hx Hlat).
    rewrite Z.eqb_refl. reflexivity.
Qed.

Lemma readAndPrintInputsOnChange_reports_witness :
  let c := HC165.Build_hc165 5 0 false false in
  0 <= 5 < 256 /\ InputSketch.latching 5 c /\
  result InputSketch.bench (InputSketch.readAndPrintInputsOnChange 0) c = 5.
Proof.
  intros c. split; [lia |]. split; [split; reflexivity |].
  refine (proj1 (readAndPrintInputsOnChange_reports 0 5 c _ _)).
  - lia.
  - split; reflexivity.
Defined.

Lemma line_reads_as_the_byte (x : Z) :
  0 <= x < 256 ->
  let line := Event (SerialPrint "Inputs: 0b"%string) tt
              :: InputSketch.digits x ++ [Event (SerialPrintln ""%string) tt] in
  InputSketch.printedNumbers line
    = map (bitRead x) [7; 6; 5; 4; 3; 2; 1; 0] /\
  InputSketch.readsAs (InputSketch.printedNumbers line) = x.
Proof.
  intros Hx line. subst line. split; [reflexivity |].
  pose proof (byte_cases
    (fun b => InputSketch.readsAs
                (InputSketch.printedNumbers
                   (Event (SerialPrint "Inputs: 0b"%string) tt
                    :: InputSketch.digits b
                       ++ [Event (SerialPrintln ""%string) tt])) =? b)
    ltac:(vm_compute; reflexivity) x Hx) as H.
  apply Z.eqb_eq. exact H.
Qed.

(** X12: when the inputs changed, the numbers [readAndPrintInputsOnChange]
    prints are the eight bits of the byte on the inputs, bit 7 first,
    leading zeros included, and read as that byte in base 2. *)
Theorem printed_digits_read_as_the_byte (previous x : Z) (c : HC165.hc165) :
  0 <= x < 256 -> InputSketch.latching x c -> x <> previous ->
  let line := InputSketch.said (InputSketch.readAndPrintInputsOnChange previous) c in
  InputSketch.printedNumbers line
    = map (bitRead x) [7; 6; 5; 4; 3; 2; 1; 0] /\
  InputSketch.readsAs (InputSketch.printedNumbers line) = x.
Proof.
  intros Hx Hc Hne line. subst line.
  rewrite (readAndPrintInputsOnChange_said previous x c Hx Hc).
  apply Z.eqb_neq in Hne. rewrite Hne.
  exact (line_reads_as_the_byte x Hx).
Qed.

Lemma printed_digits_read_as_the_byte_witness :
  let c := HC165.Build_hc165 165 0 false false in
  0 <= 165 < 256 /\ InputSketch.latching 165 c /\ 165 <> 0 /\
  InputSketch.readsAs
    (InputSketch.printedNumbers
       (InputSketch.said (InputSketch.readAndPrintInputsOnChange 0) c)) = 165.
Proof.
  intros c. split; [lia |]. split; [split; reflexivity |]. split; [lia |].
  refine (proj2 (printed_digits_read_as_the_byte 0 165 c _ _ _)).
  - lia.
  - split; reflexivity.
  - lia.
Defined.

(** ** PortExpander.ino: interrupts between the passes of [loop] *)

Section Coalescing.
Context {D : Type} `{MCP23017 D}.

Lemma loop_idle_run (w : mcu D) :
  switchDidChange w = false ->
  run world loop w = (tt, w, [Event LoadSwitchDidChange false]).
Proof.
  intros Hflag. unfold loop, readAndWritePinOnInputChange, call, trigger.
  cbn. rewrite Hflag. reflexivity.
Qed.

Lemma digitalWrites_app t1 t2 :
  Rounds.digitalWrites (t1 ++ t2) = (Rounds.digitalWrites t1 + Rounds.digitalWrites t2)%nat.
Proof. unfold Rounds.digitalWrites. rewrite filter_app. apply length_app. Qed.

Lemma interrupts_digitalWrites n : forall c : config (E := op) (W := mcu D),
  Rounds.digitalWrites (snd (interrupts world mcp23017ChangeDetectedOnPortB n c))
  = Rounds.digitalWrites (snd c).
Proof.
  induction n as [| n IH]; intros c; [reflexivity |].
  cbn [interrupts]. rewrite IH, interrupt_world. cbn [snd].
  rewrite digitalWrites_app. cbn. apply Nat.add_0_r.
Qed.

Lemma interrupts_raise n (c : config (E := op) (W := mcu D)) :
  switchDidChange (fst (interrupts world mcp23017ChangeDetectedOnPortB (S n) c))
  = true.
Proof. cbn [interrupts]. apply interrupts_flag. reflexivity. Qed.

Lemma loop_pass_idle (w : mcu D) :
  switchDidChange w = false ->
  final world loop w = w /\
  Rounds.digitalWrites (map (pair InLoop) (trace world loop w)) = 0%nat.
Proof.
  intros Hflag. unfold final, trace. rewrite (loop_idle_run w Hflag).
  split; reflexivity.
Qed.

Lemma loop_pass_handles (w : mcu D) :
  switchDidChange w = true ->
  switchDidChange (final world loop w) = false /\
  Rounds.digitalWrites (map (pair InLoop) (trace world loop w)) = 1%nat.
Proof.
  intros Hflag. unfold final, trace, loop.
  rewrite (readAndWritePinOnInputChange_run w Hflag).
  split; reflexivity.
Qed.

(** X13: when the interrupt fires only between the passes of [loop], each
    pass answers all the interrupts since the pass before with one call of
    [mcp23017.digitalWrite], to whichever pin the handler resolves, and
    makes no such call when there were none: after any number of rounds
    the flag is clear and the calls of [mcp23017.digitalWrite] number the
    rounds in which the interrupt fired. *)
Theorem interrupts_between_passes_coalesce (ks : list nat) :
  forall c : config (E := op) (W := mcu D),
    switchDidChange (fst c) = false ->
    switchDidChange (fst (Rounds.rounds ks c)) = false /\
    Rounds.digitalWrites (snd (Rounds.rounds ks c))
    = (Rounds.digitalWrites (snd c) + Rounds.fired ks)%nat.
Proof.
  induction ks as [| k ks IH]; intros c Hc.
  - split; [exact Hc |]. unfold Rounds.fired. cbn. symmetry. apply Nat.add_0_r.
  - cbn [Rounds.rounds].
    pose proof (interrupts_digitalWrites k c) as Hw.
    destruct k as [| k].
    + cbn [interrupts] in *.
      destruct (loop_pass_idle (fst c) Hc) as [Hfin Hn].
      rewrite Hfin.
      destruct (IH (fst c, snd c ++ map (pair InLoop) (trace world loop (fst c))) Hc)
        as [Hflag Hcount].
      split; [exact Hflag |].
      rewrite Hcount. cbn [snd]. rewrite digitalWrites_app, Hn.
      unfold Rounds.fired. cbn. rewrite Nat.add_0_r. reflexivity.
    + pose proof (interrupts_raise k c) as Hup.
      remember (interrupts world mcp23017ChangeDetectedOnPortB (S k) c) as c1 eqn:E1.
      clear E1.
      destruct (loop_pass_handles (fst c1) Hup) as [Hdown Hn].
      destruct (IH (final world loop (fst c1),
                    snd c1 ++ map (pair InLoop) (trace world loop (fst c1))) Hdown)
        as [Hflag Hcount].
      split; [exact Hflag |].
      rewrite Hcount. cbn [snd]. rewrite digitalWrites_app, Hn, Hw.
      unfold Rounds.fired. cbn [filter Nat.eqb negb List.length].
      rewrite <- Nat.add_assoc. reflexivity.
Qed.

End Coalescing.

Lemma interrupts_between_passes_coalesce_witness :
  let c : config (E := op) (W := mcu Bench.chip) :=
    ({| switchDidChange := false; mcp23017 := Bench.idle 16 16 |}, []) in
  switchDidChange (fst c) = false /\
  Rounds.digitalWrites (snd (Rounds.rounds [0; 3; 0; 1]%nat c))
  = (Rounds.digitalWrites (snd c) + Rounds.fired [0; 3; 0; 1]%nat)%nat.
Proof.
  intros c. split; [reflexivity |].
  refine (proj2 (interrupts_between_passes_coalesce [0; 3; 0; 1]%nat c _)).
  reflexivity.
Defined.
